(** * Lottie2MP4: the frame-to-video conversion pipeline

    A shallow embedding of [src/services/converter.ts] (with the types of
    [types.ts]) and the properties of the pipeline that the specification
    states about it.

    Numbers.  The converter computes with JavaScript numbers.  Frame
    counts, loop indices, pixel sizes, bit rates, timestamps and percentages
    are integers and are modelled in [Z]; the animation's frame rate, its
    frame count, durations and sample times are modelled as exact rationals
    in [Q].  JavaScript itself computes in binary64 and rounds after every
    division and multiplication: module [Float64] evaluates the frame
    count and the progress percentage of the source with binary64
    operations.  The frame count of binary64 can exceed the exact one by
    one, and the percentage can be one below the exact one; the
    statements about the frame count of the code are made of
    [Float64.totalOutputFrames] and of a conversion on a given count
    ([convertOn]).  No division by zero is reachable in
    [renderAndConvert] (lemma [positive_frames_fps_nonzero] below).

    Effects.  [renderAndConvert] talks to the DOM, to lottie-web, to the
    WebCodecs encoder and to the MP4 muxer.  Those collaborators are
    gathered in a [Platform] record that fixes the outcome of every call
    that can fail; the conversion itself is a computation in a small
    state / exception / log monad [M] whose state says whether the
    render container is attached to the document and whether the
    animation instance is alive, and whose log lists the observable calls
    in program order.  Awaited promises are taken to settle, and the calls
    that have no field in [Platform] (creating DOM elements, constructing
    the muxer and the encoder, the progress callback) are taken not to
    throw. *)

From Stdlib Require Import ZArith QArith Qround String List Bool Lia Sorted.
From Stdlib Require Import SpecFloat.
Import ListNotations.

Open Scope Z_scope.

(** ** JavaScript primitives *)

Module Js.

(** [Math.ceil] *)
Definition Math_ceil (x : Q) : Z := Qceiling x.

(** [Math.round]: nearest integer, ties towards plus infinity. *)
Definition Math_round (x : Q) : Z := Qfloor (x + (1 # 2)).

(** [a % b] on integers: truncated remainder, [None] standing for the
    [NaN] that JavaScript yields when [b] is zero. *)
Definition rem (a b : Z) : option Z :=
  if b =? 0 then None else Some (Z.rem a b).

(** [a % b === 0] *)
Definition rem_is_zero (a b : Z) : bool :=
  match rem a b with
  | Some r => r =? 0
  | None => false
  end.

(** [x || d] on numbers: zero is falsy. *)
Definition or_default (x d : Q) : Q :=
  if Qeq_bool x 0 then d else x.

End Js.

(** ** types.ts *)

(** Layers and assets are opaque to the converter; lottie-web alone reads
    them. *)
Inductive JsAny : Type := JsOpaque (json : string).

Module LottieFile.
Record t : Type := {
  v : string;
  fr : Q;
  ip : Q;
  op : Q;
  w : Q;
  h : Q;
  nm : string;
  layers : list JsAny;
  assets : list JsAny
}.
End LottieFile.

(** [enum Resolution]: a string enum, so that at run time a resolution is
    a string and the [switch] of [getDimensions] compares strings. *)
Module Resolution.
Definition t : Type := string.
Definition HD : t := "720p"%string.
Definition FHD : t := "1080p"%string.
Definition UHD : t := "4K"%string.
End Resolution.

(** [enum FrameRate]: a numeric enum. *)
Module FrameRate.
Definition t : Type := Z.
Definition FPS_30 : t := 30.
Definition FPS_60 : t := 60.
Definition FPS_120 : t := 120.
End FrameRate.

Record ConvertOptions : Type := {
  resolution : Resolution.t;
  fps : FrameRate.t
}.

(** ** converter.ts: getDimensions *)

Record Dimensions : Type := { w : Z; h : Z }.

(** [if (target % 2 !== 0) target--] *)
Definition ensureEven (target : Z) : Z :=
  if negb (Z.rem target 2 =? 0) then target - 1 else target.

Definition getDimensions (res : Resolution.t) (originalW originalH : Q)
  : Dimensions :=
  let '(targetW, targetH) :=
    if String.eqb res Resolution.HD then (1280, 720)
    else if String.eqb res Resolution.FHD then (1920, 1080)
    else if String.eqb res Resolution.UHD then (3840, 2160)
    else (1920, 1080) in
  {| w := ensureEven targetW; h := ensureEven targetH |}.

(** ** converter.ts: the values computed by renderAndConvert *)

(** The part of lottie-web's [AnimationItem] that the converter reads.
    lottie-web derives [totalFrames] from the document's frame range (it
    is the floor of [op - ip]) and [frameRate] from its [fr]. *)
Module AnimationItem.
Record t : Type := {
  totalFrames : Q;
  frameRate : Q
}.
End AnimationItem.

Record EncoderConfig : Type := {
  codec : string;
  width : Z;
  height : Z;
  bitrate : Z;
  framerate : Z
}.

(** [const fr = anim.frameRate || 30] *)
Definition effectiveFrameRate (anim : AnimationItem.t) : Q :=
  Js.or_default (AnimationItem.frameRate anim) 30.

(** [const durationSeconds = anim.totalFrames / fr] *)
Definition durationSeconds (anim : AnimationItem.t) : Q :=
  AnimationItem.totalFrames anim / effectiveFrameRate anim.

(** [const totalOutputFrames = Math.ceil(durationSeconds * fps)], in
    exact arithmetic; [Float64.totalOutputFrames] is the binary64 value. *)
Definition totalOutputFrames (anim : AnimationItem.t) (fps : Z) : Z :=
  Js.Math_ceil (durationSeconds anim * inject_Z fps).

Definition highProfileConfig (res : Resolution.t) (w h fps : Z)
  : EncoderConfig :=
  {| codec := "avc1.640033";
     width := w;
     height := h;
     bitrate := if String.eqb res Resolution.UHD then 40000000 else 15000000;
     framerate := fps |}.

Definition mainProfileConfig (w h fps : Z) : EncoderConfig :=
  {| codec := "avc1.4d002a";
     width := w;
     height := h;
     bitrate := 10000000;
     framerate := fps |}.

(** What [await VideoEncoder.isConfigSupported(config)] does: it resolves
    to an object with a [supported] flag, or it throws. *)
Inductive ProbeOutcome : Type :=
| ProbeResolves (supported : bool)
| ProbeThrows.

(** [let selectedConfig = mainProfileConfig; try { ... } catch { ... }] *)
Definition selectConfig (isConfigSupported : EncoderConfig -> ProbeOutcome)
    (res : Resolution.t) (w h fps : Z) : EncoderConfig :=
  match isConfigSupported (highProfileConfig res w h fps) with
  | ProbeResolves true => highProfileConfig res w h fps
  | ProbeResolves false => mainProfileConfig w h fps
  | ProbeThrows => mainProfileConfig w h fps
  end.

(** [const frameIntervalMicroseconds = 1_000_000 / fps] *)
Definition frameIntervalMicroseconds (fps : Z) : Q :=
  inject_Z 1000000 / inject_Z fps.

(** [const lottieFrame = (i / totalOutputFrames) * anim.totalFrames] *)
Definition lottieFrame (anim : AnimationItem.t) (total i : Z) : Q :=
  (inject_Z i / inject_Z total) * AnimationItem.totalFrames anim.

(** [const timestamp = Math.round(i * frameIntervalMicroseconds)] *)
Definition timestamp (fps i : Z) : Z :=
  Js.Math_round (inject_Z i * frameIntervalMicroseconds fps).

(** [const keyFrame = i % (fps * 2) === 0] *)
Definition keyFrame (fps i : Z) : bool := Js.rem_is_zero i (fps * 2).

(** [i % 5 === 0 || i === totalOutputFrames - 1] *)
Definition progressDue (total i : Z) : bool :=
  Js.rem_is_zero i 5 || (i =? total - 1).

(** [const pct = 10 + Math.round((i / totalOutputFrames) * 85)], in
    exact arithmetic; [Float64.pct] is the binary64 value. *)
Definition pct (total i : Z) : Z :=
  10 + Js.Math_round ((inject_Z i / inject_Z total) * 85).

(** ** The collaborators of renderAndConvert *)

(** The errors a conversion can end with.  The first group is thrown by
    the converter itself (the comment gives the message of the source);
    the second group stands for exceptions and rejections of the
    libraries it calls. *)
Inductive Error : Type :=
| EncodingUnsupported   (* "Your browser does not support the WebCodecs API..." *)
| CanvasContextError    (* "Could not create canvas context" *)
| InvalidDuration       (* "Invalid animation duration." *)
| RenderSurfaceMissing  (* "SVG element not found during render" *)
| AnimationLoadError    (* lottie.loadAnimation throws *)
| EncoderConfigRejected (* videoEncoder.configure throws *)
| ImageLoadError        (* loadImage rejects through img.onerror *)
| EncoderRuntimeError   (* videoEncoder.encode throws, or flush rejects *)
| MuxError.             (* muxer.finalize throws *)

(** The template strings passed to [onProgress], with the values they
    interpolate. *)
Inductive ProgressMessage : Type :=
| MsgInitializing (res : Resolution.t) (fps : Z)
| MsgProcessingFrames (total : Z)
| MsgProcessingFrame (current total : Z)
| MsgFinalizing.

(** The observable calls of one conversion, in program order. *)
Inductive Event : Type :=
| CreateContainer (w h : Z)     (* document.createElement('div') and its style *)
| AppendContainer               (* document.body.appendChild(container) *)
| RemoveContainer               (* document.body.removeChild(container) *)
| CreateCanvas (w h : Z)        (* document.createElement('canvas') *)
| LoadAnimation                 (* lottie.loadAnimation({container, ...}) *)
| DestroyAnimation              (* anim.destroy() *)
| OnProgress (msg : ProgressMessage) (percent : Z)
| CreateMuxer (w h : Z)         (* new Muxer({...}) *)
| CreateEncoder                 (* new VideoEncoder({...}) *)
| Configure (config : EncoderConfig)
| GoToAndStop (frame : Q)       (* anim.goToAndStop(lottieFrame, true) *)
| Rasterize (i : Z)             (* ctx.fillRect and ctx.drawImage of frame i *)
| Encode (timestamp : Z) (keyFrame : bool)
| Flush                         (* await videoEncoder.flush() *)
| Finalize.                     (* muxer.finalize() *)

(** The outcome of every call of the conversion that can fail.  The
    per-frame fields are indexed by the loop counter. *)
Record Platform : Type := {
  VideoEncoder_defined : bool;      (* typeof VideoEncoder !== 'undefined' *)
  getContext_2d : bool;             (* canvas.getContext('2d', ...) is not null *)
  loadAnimation : LottieFile.t -> option AnimationItem.t; (* None: it throws *)
  isConfigSupported : EncoderConfig -> ProbeOutcome;
  configure_accepts : EncoderConfig -> bool;
  querySelector_svg : Z -> bool;    (* container.querySelector('svg') is not null *)
  loadImage_resolves : Z -> bool;
  encode_accepts : Z -> bool;
  flush_resolves : bool;
  finalize_succeeds : bool
}.

(** ** The conversion monad *)

(** What the cleanup of [renderAndConvert] is about: is the render
    container a child of [document.body], and is there a lottie
    animation instance that has not been destroyed. *)
Record Dom : Type := {
  containerInBody : bool;
  animAlive : bool
}.

Inductive Outcome (A : Type) : Type :=
| Returned (a : A)
| Thrown (e : Error).
Arguments Returned {A} a.
Arguments Thrown {A} e.

Definition M (A : Type) : Type := Dom -> Outcome A * Dom * list Event.

Definition ret {A} (a : A) : M A := fun d => (Returned a, d, []).

Definition bind {A B} (m : M A) (k : A -> M B) : M B :=
  fun d =>
    match m d with
    | (Returned a, d1, l1) =>
        let '(o, d2, l2) := k a d1 in (o, d2, l1 ++ l2)
    | (Thrown e, d1, l1) => (Thrown e, d1, l1)
    end.

Definition throw {A} (e : Error) : M A := fun d => (Thrown e, d, []).

Definition emit (ev : Event) : M unit := fun d => (Returned tt, d, [ev]).

Definition getDom : M Dom := fun d => (Returned d, d, []).

Definition putDom (d' : Dom) : M unit := fun _ => (Returned tt, d', []).

(** [try { body } catch (err) { console.error(...); throw err } finally
    { fin }]: the catch clause rethrows, so only the finally clause
    matters; it runs whatever the body did, and an exception of its own
    replaces the outcome of the body. *)
Definition tryFinally {A} (body : M A) (fin : M unit) : M A :=
  fun d =>
    let '(o, d1, l1) := body d in
    match fin d1 with
    | (Returned _, d2, l2) => (o, d2, l1 ++ l2)
    | (Thrown e, d2, l2) => (Thrown e, d2, l1 ++ l2)
    end.

Declare Scope conv_scope.
Delimit Scope conv_scope with conv.
Notation "x <- m ;; k" := (bind m (fun x => k))
  (at level 61, m at next level, right associativity) : conv_scope.
Notation "m ;; k" := (bind m (fun _ => k))
  (at level 61, right associativity) : conv_scope.
Open Scope conv_scope.

(** [if (!ok) throw e] *)
Definition require (ok : bool) (e : Error) : M unit :=
  if ok then ret tt else throw e.

Definition appendChild : M unit :=
  d <- getDom ;;
  putDom {| containerInBody := true; animAlive := animAlive d |} ;;
  emit AppendContainer.

Definition removeChild : M unit :=
  d <- getDom ;;
  putDom {| containerInBody := false; animAlive := animAlive d |} ;;
  emit RemoveContainer.

Definition lottie_loadAnimation (p : Platform) (animationData : LottieFile.t)
  : M AnimationItem.t :=
  match loadAnimation p animationData with
  | None => throw AnimationLoadError
  | Some anim =>
      d <- getDom ;;
      putDom {| containerInBody := containerInBody d; animAlive := true |} ;;
      emit LoadAnimation ;;
      ret anim
  end.

Definition anim_destroy : M unit :=
  d <- getDom ;;
  putDom {| containerInBody := containerInBody d; animAlive := false |} ;;
  emit DestroyAnimation.

(** ** converter.ts: renderAndConvert *)

(** [for (let i = 0; i < totalOutputFrames; i++) { ... }]: the body for
    the loop counter [i], then the rest of the loop, [remaining] being the
    number of iterations still to run ([totalOutputFrames - i]; the loop
    is entered with [i = 0] and [remaining = totalOutputFrames]). *)
Fixpoint encodeLoop (p : Platform) (anim : AnimationItem.t)
    (fps totalOutputFrames : Z) (remaining : nat) (i : Z) : M unit :=
  match remaining with
  | O => ret tt
  | S k =>
      emit (GoToAndStop (lottieFrame anim totalOutputFrames i)) ;;
      require (querySelector_svg p i) RenderSurfaceMissing ;;
      require (loadImage_resolves p i) ImageLoadError ;;
      emit (Rasterize i) ;;
      require (encode_accepts p i) EncoderRuntimeError ;;
      emit (Encode (timestamp fps i) (keyFrame fps i)) ;;
      (if progressDue totalOutputFrames i
       then emit (OnProgress (MsgProcessingFrame (i + 1) totalOutputFrames)
                             (pct totalOutputFrames i))
       else ret tt) ;;
      encodeLoop p anim fps totalOutputFrames k (i + 1)
  end.

(** The block guarded by [try]. *)
Definition convertBody (p : Platform) (anim : AnimationItem.t)
    (options : ConvertOptions) (w h : Z) : M unit :=
  let total := totalOutputFrames anim (fps options) in
  require (negb (total <=? 0)) InvalidDuration ;;
  emit (OnProgress (MsgInitializing (resolution options) (fps options)) 5) ;;
  emit (CreateMuxer w h) ;;
  emit CreateEncoder ;;
  let selectedConfig :=
    selectConfig (isConfigSupported p) (resolution options) w h (fps options) in
  require (configure_accepts p selectedConfig) EncoderConfigRejected ;;
  emit (Configure selectedConfig) ;;
  emit (OnProgress (MsgProcessingFrames total) 10) ;;
  encodeLoop p anim (fps options) total (Z.to_nat total) 0 ;;
  emit (OnProgress MsgFinalizing 98) ;;
  require (flush_resolves p) EncoderRuntimeError ;;
  emit Flush ;;
  require (finalize_succeeds p) MuxError ;;
  emit Finalize.

(** The [finally] block. *)
Definition cleanup : M unit :=
  anim_destroy ;;
  d <- getDom ;;
  if containerInBody d then removeChild else ret tt.

Definition renderAndConvert (p : Platform) (animationData : LottieFile.t)
    (options : ConvertOptions) : M unit :=
  let dims := getDimensions (resolution options)
                (LottieFile.w animationData) (LottieFile.h animationData) in
  require (VideoEncoder_defined p) EncodingUnsupported ;;
  emit (CreateContainer (w dims) (h dims)) ;;
  appendChild ;;
  emit (CreateCanvas (w dims) (h dims)) ;;
  (if getContext_2d p then ret tt
   else removeChild ;; throw CanvasContextError) ;;
  anim <- lottie_loadAnimation p animationData ;;
  tryFinally (convertBody p anim options (w dims) (h dims)) cleanup.

(** A conversion starts with no render container in the document and no
    animation instance. *)
Definition initialDom : Dom :=
  {| containerInBody := false; animAlive := false |}.

Definition convert (p : Platform) (animationData : LottieFile.t)
    (options : ConvertOptions) : Outcome unit * Dom * list Event :=
  renderAndConvert p animationData options initialDom.

Definition outcomeOf (r : Outcome unit * Dom * list Event) : Outcome unit :=
  fst (fst r).
Definition domOf (r : Outcome unit * Dom * list Event) : Dom := snd (fst r).
Definition logOf (r : Outcome unit * Dom * list Event) : list Event := snd r.

(** Projections of a log. *)
Definition percentOf (ev : Event) : option Z :=
  match ev with OnProgress _ percent => Some percent | _ => None end.

Definition timestampOf (ev : Event) : option Z :=
  match ev with Encode ts _ => Some ts | _ => None end.

Fixpoint filterMap {A B} (f : A -> option B) (l : list A) : list B :=
  match l with
  | [] => []
  | x :: l' =>
      match f x with
      | Some y => y :: filterMap f l'
      | None => filterMap f l'
      end
  end.

Definition percents (log : list Event) : list Z := filterMap percentOf log.
Definition timestamps (log : list Event) : list Z := filterMap timestampOf log.

Definition isRenderingWork (ev : Event) : bool :=
  match ev with
  | CreateContainer _ _ | AppendContainer | CreateCanvas _ _
  | LoadAnimation | GoToAndStop _ | Rasterize _ => true
  | _ => false
  end.

(** ** The log of a conversion that nothing interrupts *)

(** [len] consecutive integers from [start]: the values of the loop
    counter. *)
Fixpoint Zseq (start : Z) (len : nat) : list Z :=
  match len with
  | O => []
  | S k => start :: Zseq (start + 1) k
  end.

(** What one iteration of the loop logs when no call fails. *)
Definition frameEvents (anim : AnimationItem.t) (fps total i : Z)
  : list Event :=
  [GoToAndStop (lottieFrame anim total i);
   Rasterize i;
   Encode (timestamp fps i) (keyFrame fps i)]
  ++ (if progressDue total i
      then [OnProgress (MsgProcessingFrame (i + 1) total) (pct total i)]
      else []).

Definition loopEvents (anim : AnimationItem.t) (fps total : Z)
    (remaining : nat) (i : Z) : list Event :=
  flat_map (frameEvents anim fps total) (Zseq i remaining).

Definition bodyEvents (p : Platform) (anim : AnimationItem.t)
    (options : ConvertOptions) (w h : Z) : list Event :=
  let total := totalOutputFrames anim (fps options) in
  [OnProgress (MsgInitializing (resolution options) (fps options)) 5;
   CreateMuxer w h;
   CreateEncoder;
   Configure (selectConfig (isConfigSupported p) (resolution options) w h
                (fps options));
   OnProgress (MsgProcessingFrames total) 10]
  ++ loopEvents anim (fps options) total (Z.to_nat total) 0
  ++ [OnProgress MsgFinalizing 98; Flush; Finalize].

Definition prefix {A} (l1 l2 : list A) : Prop := exists rest, l2 = l1 ++ rest.

(** The errors that can interrupt the loop. *)
Definition loopError (e : Error) : Prop :=
  e = RenderSurfaceMissing \/ e = ImageLoadError \/ e = EncoderRuntimeError.

(** The flags with which frames were submitted to the encoder. *)
Definition keyFlagOf (ev : Event) : option bool :=
  match ev with Encode _ kf => Some kf | _ => None end.

Definition seekOf (ev : Event) : option Q :=
  match ev with GoToAndStop frame => Some frame | _ => None end.

(** An error of the guarded block other than [InvalidDuration]. *)
Definition lateError (e : Error) : Prop :=
  e = EncoderConfigRejected \/ loopError e \/ e = MuxError.

Definition configOf (ev : Event) : option EncoderConfig :=
  match ev with Configure config => Some config | _ => None end.

Definition rasterOf (ev : Event) : option Z :=
  match ev with Rasterize i => Some i | _ => None end.

(** The platform [p] with another capability probe. *)
Definition withProbe (p : Platform)
    (probe : EncoderConfig -> ProbeOutcome) : Platform :=
  {| VideoEncoder_defined := VideoEncoder_defined p;
     getContext_2d := getContext_2d p;
     loadAnimation := loadAnimation p;
     isConfigSupported := probe;
     configure_accepts := configure_accepts p;
     querySelector_svg := querySelector_svg p;
     loadImage_resolves := loadImage_resolves p;
     encode_accepts := encode_accepts p;
     flush_resolves := flush_resolves p;
     finalize_succeeds := finalize_succeeds p |}.

(** ** The frame count in the words of the specification *)

(** [ceil(((outPoint - inPoint) / frameRate) * targetFps)].  The
    quotient by a zero frame rate is not a finite number (JavaScript
    yields an infinity or NaN), which [None] stands for. *)
Definition spec_totalOutputFrames (sourceTotalFrames frameRate : Q)
    (targetFps : Z) : option Z :=
  if Qeq_bool frameRate 0 then None
  else Some (Qceiling ((sourceTotalFrames / frameRate) * inject_Z targetFps)).

(** ** Concrete platforms and documents *)

(** A browser on which every call succeeds, with a lottie-web that reads
    [totalFrames] (the floor of [op - ip]) and [frameRate] off the
    document. *)
Definition workingPlatform : Platform :=
  {| VideoEncoder_defined := true;
     getContext_2d := true;
     loadAnimation := fun doc =>
       Some {| AnimationItem.totalFrames :=
                 inject_Z (Qfloor (LottieFile.op doc - LottieFile.ip doc));
               AnimationItem.frameRate := LottieFile.fr doc |};
     isConfigSupported := fun _ => ProbeResolves true;
     configure_accepts := fun _ => true;
     querySelector_svg := fun _ => true;
     loadImage_resolves := fun _ => true;
     encode_accepts := fun _ => true;
     flush_resolves := true;
     finalize_succeeds := true |}.

(** The same browser without the WebCodecs API. *)
Definition noWebCodecsPlatform : Platform :=
  {| VideoEncoder_defined := false;
     getContext_2d := true;
     loadAnimation := loadAnimation workingPlatform;
     isConfigSupported := fun _ => ProbeThrows;
     configure_accepts := fun _ => false;
     querySelector_svg := fun _ => true;
     loadImage_resolves := fun _ => true;
     encode_accepts := fun _ => false;
     flush_resolves := false;
     finalize_succeeds := true |}.

(** The same browser with a lottie-web that throws on the document. *)
Definition loadThrowsPlatform : Platform :=
  {| VideoEncoder_defined := true;
     getContext_2d := true;
     loadAnimation := fun _ => None;
     isConfigSupported := fun _ => ProbeResolves true;
     configure_accepts := fun _ => true;
     querySelector_svg := fun _ => true;
     loadImage_resolves := fun _ => true;
     encode_accepts := fun _ => true;
     flush_resolves := true;
     finalize_succeeds := true |}.

Definition document (fr ip op : Q) (layers : list JsAny) : LottieFile.t :=
  {| LottieFile.v := "5.7.4";
     LottieFile.fr := fr;
     LottieFile.ip := ip;
     LottieFile.op := op;
     LottieFile.w := 512;
     LottieFile.h := 512;
     LottieFile.nm := "animation";
     LottieFile.layers := layers;
     LottieFile.assets := [] |}.

(** A one-second animation at 30 frames per second. *)
Definition oneSecondDocument : LottieFile.t := document 30 0 30 [].

(** A document whose out-point equals its in-point. *)
Definition emptyRangeDocument : LottieFile.t := document 30 12 12 [].

(** A document with a layer that is not an object. *)
Definition brokenLayerDocument : LottieFile.t :=
  document 30 0 30 [JsOpaque "null"].

Definition options_FHD_30 : ConvertOptions :=
  {| resolution := Resolution.FHD; fps := FrameRate.FPS_30 |}.

Definition options_UHD_60 : ConvertOptions :=
  {| resolution := Resolution.UHD; fps := FrameRate.FPS_60 |}.

(** A projection of events that sees nothing of the set-up and of the
    clean-up. *)
Definition bodyProjection {B} (f : Event -> option B) : Prop :=
  (forall w h, f (CreateContainer w h) = None) /\
  f AppendContainer = None /\ f RemoveContainer = None /\
  (forall w h, f (CreateCanvas w h) = None) /\
  f LoadAnimation = None /\ f DestroyAnimation = None.

(** ** The first call of the loop that fails *)

(** The three calls of iteration [i] that can fail all succeed. *)
Definition frameOk (p : Platform) (i : Z) : bool :=
  querySelector_svg p i && loadImage_resolves p i && encode_accepts p i.

(** The error of the first of them that fails. *)
Definition frameError (p : Platform) (i : Z) : Error :=
  if negb (querySelector_svg p i) then RenderSurfaceMissing
  else if negb (loadImage_resolves p i) then ImageLoadError
  else EncoderRuntimeError.

(** What iteration [i] logs before its failing call. *)
Definition failedFrameEvents (p : Platform) (anim : AnimationItem.t)
    (total i : Z) : list Event :=
  GoToAndStop (lottieFrame anim total i)
  :: (if querySelector_svg p i && loadImage_resolves p i
      then [Rasterize i] else []).

(** The events of the guarded block before the loop. *)
Definition bodyHead (p : Platform) (anim : AnimationItem.t)
    (options : ConvertOptions) (w h : Z) : list Event :=
  [OnProgress (MsgInitializing (resolution options) (fps options)) 5;
   CreateMuxer w h;
   CreateEncoder;
   Configure (selectConfig (isConfigSupported p) (resolution options) w h
                (fps options));
   OnProgress (MsgProcessingFrames (totalOutputFrames anim (fps options))) 10].

(** Events of the set-up and of the clean-up. *)
Definition isLifecycle (ev : Event) : bool :=
  match ev with
  | CreateContainer _ _ | AppendContainer | RemoveContainer
  | CreateCanvas _ _ | LoadAnimation | DestroyAnimation => true
  | _ => false
  end.

Definition isFinalize (ev : Event) : bool :=
  match ev with Finalize => true | _ => false end.

Definition isFlush (ev : Event) : bool :=
  match ev with Flush => true | _ => false end.

Definition encodeOf (ev : Event) : option (Z * bool) :=
  match ev with Encode ts kf => Some (ts, kf) | _ => None end.

Definition muxerOf (ev : Event) : option (Z * Z) :=
  match ev with CreateMuxer w h => Some (w, h) | _ => None end.

Definition canvasOf (ev : Event) : option (Z * Z) :=
  match ev with CreateCanvas w h => Some (w, h) | _ => None end.

Definition frameReportOf (ev : Event) : option (Z * Z) :=
  match ev with
  | OnProgress (MsgProcessingFrame current total) _ => Some (current, total)
  | _ => None
  end.

(** The counter of the first iteration, among [remaining] iterations from
    [i], in which a call fails. *)
Fixpoint firstFailure (p : Platform) (remaining : nat) (i : Z) : option Z :=
  match remaining with
  | O => None
  | S k => if frameOk p i then firstFailure p k (i + 1) else Some i
  end.

(** The outcome and the log of the guarded block in closed form: what
    [convertBody] comes to, read call by call. *)
Definition bodyRun (p : Platform) (anim : AnimationItem.t)
    (options : ConvertOptions) (w h : Z) : Outcome unit * list Event :=
  let total := totalOutputFrames anim (fps options) in
  let head := bodyHead p anim options w h in
  let loop := loopEvents anim (fps options) total in
  if total <=? 0 then (Thrown InvalidDuration, [])
  else if negb (configure_accepts p
                  (selectConfig (isConfigSupported p) (resolution options)
                     w h (fps options)))
  then (Thrown EncoderConfigRejected, firstn 3 head)
  else
    match firstFailure p (Z.to_nat total) 0 with
    | Some k =>
        (Thrown (frameError p k),
         head ++ loop (Z.to_nat k) 0 ++ failedFrameEvents p anim total k)
    | None =>
        if negb (flush_resolves p) then
          (Thrown EncoderRuntimeError,
           head ++ loop (Z.to_nat total) 0 ++ [OnProgress MsgFinalizing 98])
        else if negb (finalize_succeeds p) then
          (Thrown MuxError,
           head ++ loop (Z.to_nat total) 0
           ++ [OnProgress MsgFinalizing 98; Flush])
        else
          (Returned tt,
           head ++ loop (Z.to_nat total) 0
           ++ [OnProgress MsgFinalizing 98; Flush; Finalize])
    end.

(** The whole conversion in closed form. *)
Definition convertRun (p : Platform) (animationData : LottieFile.t)
    (options : ConvertOptions) : Outcome unit * Dom * list Event :=
  let dims := getDimensions (resolution options)
                (LottieFile.w animationData) (LottieFile.h animationData) in
  let setup := [CreateContainer (w dims) (h dims); AppendContainer;
                CreateCanvas (w dims) (h dims)] in
  if negb (VideoEncoder_defined p) then
    (Thrown EncodingUnsupported, initialDom, [])
  else if negb (getContext_2d p) then
    (Thrown CanvasContextError, initialDom, setup ++ [RemoveContainer])
  else
    match loadAnimation p animationData with
    | None =>
        (Thrown AnimationLoadError,
         {| containerInBody := true; animAlive := false |}, setup)
    | Some anim =>
        let '(o, l) := bodyRun p anim options (w dims) (h dims) in
        (o, initialDom,
         setup ++ [LoadAnimation] ++ l ++ [DestroyAnimation; RemoveContainer])
    end.

(** A browser whose encoder throws from frame [k] on (it closed after an
    error), everything else working. *)
Definition encoderFailsFrom (k : Z) : Platform :=
  {| VideoEncoder_defined := true;
     getContext_2d := true;
     loadAnimation := loadAnimation workingPlatform;
     isConfigSupported := fun _ => ProbeResolves true;
     configure_accepts := fun _ => true;
     querySelector_svg := fun _ => true;
     loadImage_resolves := fun _ => true;
     encode_accepts := fun i => i <? k;
     flush_resolves := true;
     finalize_succeeds := true |}.

(** ** App.tsx: handleConvert *)

(** [String.prototype.includes] *)
Fixpoint includes (needle hay : string) : bool :=
  if String.prefix needle hay then true
  else match hay with
       | EmptyString => false
       | String _ rest => includes needle rest
       end.

(** What a [catch] clause can receive: a string, or an object whose
    [message] property is a string or is missing (an [Error], a
    [DOMException], the [Event] that [img.onerror] passes on). *)
Inductive JsThrown : Type :=
| ThrownString (s : string)
| ThrownObject (message : option string).

(** The message of the errors that [renderAndConvert] makes itself with
    [new Error(...)]. *)
Definition converterMessage (e : Error) : option string :=
  match e with
  | EncodingUnsupported =>
      Some "Your browser does not support the WebCodecs API. Please use the latest Chrome or Edge."%string
  | CanvasContextError => Some "Could not create canvas context"%string
  | InvalidDuration => Some "Invalid animation duration."%string
  | RenderSurfaceMissing => Some "SVG element not found during render"%string
  | _ => None
  end.

(** The value with which the conversion rejects: the converter's own
    [Error], or whatever the failing library threw ([external]). *)
Definition thrownBy (external : Error -> JsThrown) (e : Error) : JsThrown :=
  match converterMessage e with
  | Some m => ThrownObject (Some m)
  | None => external e
  end.

Module App.

(** The [state] of a [ConversionStatus]. *)
Inductive State : Type :=
| idle | loading_ffmpeg | rendering | encoding | completed | error.

(** The [message] of a status: the text of [handleConvert] itself, or
    the message that the converter passed to its callback. *)
Inductive StatusMessage : Type :=
| InitializingRenderer            (* 'Initializing Renderer...' *)
| FromConverter (msg : ProgressMessage)
| ConversionComplete.             (* 'Conversion Complete!' *)

(** [interface ConversionStatus]; [errorText] is its [error] field. *)
Record ConversionStatus : Type := {
  state : State;
  progress : Z;
  message : option StatusMessage;
  outputUrl : option string;
  errorText : option string
}.

Definition unexpectedError : string := "An unexpected error occurred.".

Definition encodingHint : string :=
  "Encoding Error: Your browser might not support the required video codecs. Please try Chrome/Edge.".

(** The [catch] clause of [handleConvert]: the text shown for a thrown
    value. *)
Definition errMsg (thrown : JsThrown) : string :=
  match thrown with
  | ThrownString s => s
  | ThrownObject (Some m) =>
      if String.eqb m "" then unexpectedError
      else if includes "VideoEncoder" m then encodingHint
      else m
  | ThrownObject None => unexpectedError
  end.

(** [(msg, pct) => setStatus({ state: 'rendering', progress: pct,
    message: msg })] *)
Definition onProgress (ev : Event) : option ConversionStatus :=
  match ev with
  | OnProgress msg pct =>
      Some {| state := rendering; progress := pct;
              message := Some (FromConverter msg);
              outputUrl := None; errorText := None |}
  | _ => None
  end.

(** [handleConvert], as the statuses it sets one after the other.
    [lottieData] is the loaded document or null; [url] is the object URL
    to which a conversion that succeeds resolves. *)
Definition handleConvert (p : Platform) (external : Error -> JsThrown)
    (url : string) (lottieData : option LottieFile.t)
    (options : ConvertOptions) : list ConversionStatus :=
  match lottieData with
  | None => []
  | Some data =>
      let r := convert p data options in
      [{| state := rendering; progress := 0;
          message := Some InitializingRenderer;
          outputUrl := None; errorText := None |}]
      ++ filterMap onProgress (logOf r)
      ++ [match outcomeOf r with
          | Returned _ =>
              {| state := completed; progress := 100;
                 message := Some ConversionComplete;
                 outputUrl := Some url; errorText := None |}
          | Thrown e =>
              {| state := error; progress := 0; message := None;
                 outputUrl := None;
                 errorText := Some (errMsg (thrownBy external e)) |}
          end]
  end.

End App.

(** ** Dropzone.tsx and the file name kept by App.tsx *)

(** [String.prototype.endsWith] *)
Fixpoint endsWith (s suffix : string) : bool :=
  if String.eqb s suffix then true
  else match s with
       | EmptyString => false
       | String _ rest => endsWith rest suffix
       end.

(** The string without its first [n] characters. *)
Fixpoint dropChars (n : nat) (s : string) : string :=
  match n, s with
  | O, _ => s
  | S k, EmptyString => EmptyString
  | S k, String _ rest => dropChars k rest
  end.

(** [s.replace(pattern, replacement)] for a string pattern and a
    replacement without [$]: the first occurrence of the pattern is
    replaced, and a string without the pattern is returned as it is. *)
Fixpoint replaceFirst (pattern replacement s : string) : string :=
  match s with
  | EmptyString =>
      if String.prefix pattern EmptyString then replacement else EmptyString
  | String c rest =>
      if String.prefix pattern s
      then (replacement ++ dropChars (String.length pattern) s)%string
      else String c (replaceFirst pattern replacement rest)
  end.

(** The character "." *)
Definition dot : Ascii.ascii :=
  Ascii.Ascii false true true true false true false false.

(** Whether the character [c] occurs in [s]. *)
Fixpoint hasChar (c : Ascii.ascii) (s : string) : bool :=
  match s with
  | EmptyString => false
  | String c' rest => Ascii.eqb c c' || hasChar c rest
  end.

Module Dropzone.

(** The part of a [File] that [processFile] reads; [text] is what the
    [FileReader] hands to [reader.onload]. *)
Record File : Type := {
  type : string;
  name : string;
  text : string
}.

Inductive Outcome : Type :=
| Rejected (error : string)                 (* setError(error) *)
| Loaded (json : JsAny) (fileName : string). (* onFileLoaded(json, file.name) *)

(** [processFile]; [JSON_parse] is [JSON.parse], [None] when it throws. *)
Definition processFile (JSON_parse : string -> option JsAny) (file : File)
  : Outcome :=
  if negb (String.eqb (type file) "application/json")
     && negb (endsWith (name file) ".json")
  then Rejected "Please upload a valid .json Lottie file"
  else
    match JSON_parse (text file) with
    | Some json => Loaded json (name file)
    | None => Rejected "Invalid JSON file"
    end.

End Dropzone.

(** [setFileName(name.replace('.json', ''))] of [handleFileLoaded] *)
Definition fileNameOf (name : string) : string :=
  replaceFirst ".json" "" name.

(** ** ControlPanel.tsx: the options a user can reach *)

Module ControlPanel.

(** [Object.values(Resolution)]: the resolution buttons. *)
Definition resolutionButtons : list Resolution.t :=
  [Resolution.HD; Resolution.FHD; Resolution.UHD].

(** [[FrameRate.FPS_30, FrameRate.FPS_60, FrameRate.FPS_120]]: the frame
    rate buttons. *)
Definition fpsButtons : list FrameRate.t :=
  [FrameRate.FPS_30; FrameRate.FPS_60; FrameRate.FPS_120].

(** A click on the n-th button of one of the two rows. *)
Inductive Click : Type :=
| ClickResolution (n : nat)
| ClickFps (n : nat).

(** [setOptions({ ...options, resolution: res })] and
    [setOptions({ ...options, fps })]. *)
Definition onClick (options : ConvertOptions) (c : Click) : ConvertOptions :=
  match c with
  | ClickResolution n =>
      match nth_error resolutionButtons n with
      | Some res => {| resolution := res; fps := fps options |}
      | None => options
      end
  | ClickFps n =>
      match nth_error fpsButtons n with
      | Some f => {| resolution := resolution options; fps := f |}
      | None => options
      end
  end.

(** The initial options of [App]. *)
Definition initialOptions : ConvertOptions :=
  {| resolution := Resolution.FHD; fps := FrameRate.FPS_60 |}.

(** The options after a series of clicks. *)
Definition optionsAfter (clicks : list Click) : ConvertOptions :=
  fold_left onClick clicks initialOptions.

End ControlPanel.

(** ** gemini.ts *)

Module Gemini.

(** What reading [l.nm] of a layer [l] does: it throws a [TypeError]
    when the layer is null or undefined, and it yields a value that is
    falsy (no [nm], an empty string) or truthy. *)
Inductive NmRead : Type :=
| NmThrows
| NmFalsy
| NmTruthy (nm : JsAny).

(** An entry of [sampleLayers]: [l.nm || 'Unnamed Layer']. *)
Inductive LayerLabel : Type :=
| Named (nm : JsAny)
| UnnamedLayer.   (* 'Unnamed Layer' *)

(** The object that [parseLottieForPrompt] passes to [JSON.stringify]. *)
Record Summary : Type := {
  name : string;
  width : Q;
  height : Q;
  frameRate : Q;
  inPoint : Q;
  outPoint : Q;
  totalLayers : nat;
  hasAssets : bool;
  sampleLayers : list LayerLabel
}.

(** [layers.map((l) => l.nm || 'Unnamed Layer')]: the layers are read
    in order, and the first read that throws ends the whole call
    ([None]). *)
Fixpoint mapLayerNames (readNm : JsAny -> NmRead) (layers : list JsAny)
  : option (list LayerLabel) :=
  match layers with
  | [] => Some []
  | l :: rest =>
      match readNm l with
      | NmThrows => None
      | NmFalsy =>
          option_map (cons UnnamedLayer) (mapLayerNames readNm rest)
      | NmTruthy nm =>
          option_map (cons (Named nm)) (mapLayerNames readNm rest)
      end
  end.

(** [parseLottieForPrompt] up to the final [JSON.stringify]; [None] when
    it throws.  [readNm] reads the [nm] property of a layer. *)
Definition parseLottieForPrompt (readNm : JsAny -> NmRead)
    (json : LottieFile.t) : option Summary :=
  match mapLayerNames readNm (firstn 5 (LottieFile.layers json)) with
  | None => None
  | Some names =>
      Some {| name := LottieFile.nm json;
              width := LottieFile.w json;
              height := LottieFile.h json;
              frameRate := LottieFile.fr json;
              inPoint := LottieFile.ip json;
              outPoint := LottieFile.op json;
              totalLayers := List.length (LottieFile.layers json);
              hasAssets :=
                negb (Nat.eqb (List.length (LottieFile.assets json)) 0);
              sampleLayers := names |}
  end.

(** [interface GeminiAnalysisResult] of types.ts *)
Record GeminiAnalysisResult : Type := {
  summary : string;
  technicalDetails : string;
  creativeSuggestions : string
}.

(** What [analyzeAnimation] depends on: the API key of the environment
    ([None] when it is not set), [JSON.stringify], the request to the
    model, which yields the text of the response or fails, and
    [JSON.parse] of that text, which yields the result or throws. *)
Record Service : Type := {
  API_KEY : option string;
  JSON_stringify : Summary -> string;
  generateContent : string -> string -> option string;
  JSON_parse : string -> option GeminiAnalysisResult
}.

(** The errors with which [analyzeAnimation] rejects: its own two, and
    the [TypeError] of [parseLottieForPrompt], which is called before the
    [try] block and so is not replaced by the generic error. *)
Inductive AnalysisError : Type :=
| ApiKeyMissing    (* "API Key is missing in environment variables" *)
| LayerTypeError   (* the TypeError of l.nm on a null layer *)
| AnalysisFailed.  (* "Failed to analyze animation with Gemini." *)

(** A request to the model: the API key and the summary that the prompt
    template embeds. *)
Record Request : Type := {
  apiKey : string;
  simplifiedJson : string
}.

(** [analyzeAnimation]: its result or error, and the requests it made. *)
Definition analyzeAnimation (readNm : JsAny -> NmRead) (s : Service)
    (lottieData : LottieFile.t)
  : (GeminiAnalysisResult + AnalysisError) * list Request :=
  match API_KEY s with
  | None => (inr ApiKeyMissing, [])
  | Some key =>
      if String.eqb key "" then (inr ApiKeyMissing, [])
      else
        match parseLottieForPrompt readNm lottieData with
        | None => (inr LayerTypeError, [])
        | Some sm =>
            let json := JSON_stringify s sm in
            let request := {| apiKey := key; simplifiedJson := json |} in
            match generateContent s key json with
            | None => (inr AnalysisFailed, [request])
            | Some text =>
                match JSON_parse s text with
                | Some result => (inl result, [request])
                | None => (inr AnalysisFailed, [request])
                end
            end
        end
  end.

(** What [handleAnalyze] of App.tsx does, call by call. *)
Inductive Action : Type :=
| SetIsAnalyzing (b : bool)
| SetAnalysis (result : GeminiAnalysisResult)
| Alert (text : string).

Definition handleAnalyze (readNm : JsAny -> NmRead) (s : Service)
    (lottieData : option LottieFile.t) : list Action :=
  match lottieData with
  | None => []
  | Some data =>
      [SetIsAnalyzing true]
      ++ [match fst (analyzeAnimation readNm s data) with
          | inl result => SetAnalysis result
          | inr _ =>
              Alert "Failed to analyze. Please check your API Key configuration."
          end]
      ++ [SetIsAnalyzing false]
  end.

End Gemini.

(** Options that the two rows of buttons offer. *)
Definition supportedOptions (options : ConvertOptions) : Prop :=
  In (resolution options) ControlPanel.resolutionButtons /\
  In (fps options) ControlPanel.fpsButtons.

(** An environment without API key. *)
Definition keylessService : Gemini.Service :=
  {| Gemini.API_KEY := None;
     Gemini.JSON_stringify := fun s => Gemini.name s;
     Gemini.generateContent := fun _ _ => None;
     Gemini.JSON_parse := fun _ => None |}.

(** A reader of layer names for the examples: the layer [null] makes the
    read throw, the layer [{}] has no name, any other layer is its own
    name. *)
Definition exampleReadNm (l : JsAny) : Gemini.NmRead :=
  match l with
  | JsOpaque json =>
      if String.eqb json "null" then Gemini.NmThrows
      else if String.eqb json "{}" then Gemini.NmFalsy
      else Gemini.NmTruthy l
  end.

(** A document with seven layers, the last of which is [null]. *)
Definition sevenLayerDocument : LottieFile.t :=
  document 30 0 30
    [JsOpaque "bg"; JsOpaque "{}"; JsOpaque "logo"; JsOpaque "title";
     JsOpaque "{}"; JsOpaque "shadow"; JsOpaque "null"].

(** An environment with an API key whose requests fail. *)
Definition offlineService : Gemini.Service :=
  {| Gemini.API_KEY := Some "key"%string;
     Gemini.JSON_stringify := fun s => Gemini.name s;
     Gemini.generateContent := fun _ _ => None;
     Gemini.JSON_parse := fun _ => None |}.

(** ** The arithmetic of renderAndConvert in binary64 *)

(** JavaScript numbers are binary64 values, and every division and
    multiplication rounds.  The definitions above compute with exact
    rationals; the ones of this module compute the same expressions of
    the source with the binary64 operations of the Standard Library's
    [SpecFloat], so that they evaluate to what the code evaluates to. *)
Module Float64.

Definition prec : Z := 53.
Definition emax : Z := 1024.

(** The binary64 value of an integer literal, and of a decimal literal
    given as a fraction. *)
Definition ofZ (z : Z) : spec_float := binary_normalize prec emax z 0 false.
Definition div (x y : spec_float) : spec_float := SFdiv prec emax x y.
Definition mul (x y : spec_float) : spec_float := SFmul prec emax x y.
Definition ofQ (q : Q) : spec_float :=
  div (ofZ (Qnum q)) (ofZ (Zpos (Qden q))).

(** [x || d]: zero and [NaN] are falsy. *)
Definition or_default (x d : spec_float) : spec_float :=
  match x with
  | S754_zero _ | S754_nan => d
  | _ => x
  end.

(** [Math.ceil], as an integer; [None] for [NaN] and the infinities. *)
Definition Math_ceil (x : spec_float) : option Z :=
  match x with
  | S754_zero _ => Some 0
  | S754_finite s m e =>
      let v := cond_Zopp s (Zpos m) in
      Some (if 0 <=? e then v * 2 ^ e else - ((- v) / 2 ^ (- e)))
  | _ => None
  end.

(** [Math.round], as an integer: the nearest integer of the binary64
    value, ties towards plus infinity. *)
Definition Math_round (x : spec_float) : option Z :=
  match x with
  | S754_zero _ => Some 0
  | S754_finite s m e =>
      let v := cond_Zopp s (Zpos m) in
      Some (if 0 <=? e then v * 2 ^ e
            else (2 * v + 2 ^ (- e)) / (2 * 2 ^ (- e)))
  | _ => None
  end.

(** [const fr = anim.frameRate || 30;
     const durationSeconds = anim.totalFrames / fr;
     const totalOutputFrames = Math.ceil(durationSeconds * fps)]
    on the binary64 values of [anim.totalFrames], [anim.frameRate] and
    [fps]; [None] when the result is [NaN] or an infinity. *)
Definition totalOutputFrames (totalFrames frameRate fps : spec_float)
  : option Z :=
  let fr := or_default frameRate (ofZ 30) in
  let durationSeconds := div totalFrames fr in
  Math_ceil (mul durationSeconds fps).

(** [const pct = 10 + Math.round((i / totalOutputFrames) * 85)] *)
Definition pct (total i : Z) : option Z :=
  option_map (Z.add 10)
    (Math_round (mul (div (ofZ i) (ofZ total)) (ofZ 85))).

End Float64.

(** The frame count that the code computes for a loaded animation: the
    binary64 evaluation on the values that the animation reports. *)
Definition totalOutputFrames64 (anim : AnimationItem.t) (fps : Z)
  : option Z :=
  Float64.totalOutputFrames
    (Float64.ofQ (AnimationItem.totalFrames anim))
    (Float64.ofQ (AnimationItem.frameRate anim))
    (Float64.ofZ fps).

(** ** renderAndConvert on a given frame count *)

(** The block guarded by [try] with the value of [totalOutputFrames]
    taken as given: [convertBody] is this block on the count that the
    exact-rational [totalOutputFrames] computes (lemma
    [convertBody_on_exact_count]), and the code is this block on the
    count that binary64 arithmetic computes ([totalOutputFrames64]). *)
Definition convertBodyOn (total : Z) (p : Platform) (anim : AnimationItem.t)
    (options : ConvertOptions) (w h : Z) : M unit :=
  require (negb (total <=? 0)) InvalidDuration ;;
  emit (OnProgress (MsgInitializing (resolution options) (fps options)) 5) ;;
  emit (CreateMuxer w h) ;;
  emit CreateEncoder ;;
  let selectedConfig :=
    selectConfig (isConfigSupported p) (resolution options) w h (fps options) in
  require (configure_accepts p selectedConfig) EncoderConfigRejected ;;
  emit (Configure selectedConfig) ;;
  emit (OnProgress (MsgProcessingFrames total) 10) ;;
  encodeLoop p anim (fps options) total (Z.to_nat total) 0 ;;
  emit (OnProgress MsgFinalizing 98) ;;
  require (flush_resolves p) EncoderRuntimeError ;;
  emit Flush ;;
  require (finalize_succeeds p) MuxError ;;
  emit Finalize.

Definition renderAndConvertOn (total : Z) (p : Platform)
    (animationData : LottieFile.t) (options : ConvertOptions) : M unit :=
  let dims := getDimensions (resolution options)
                (LottieFile.w animationData) (LottieFile.h animationData) in
  require (VideoEncoder_defined p) EncodingUnsupported ;;
  emit (CreateContainer (w dims) (h dims)) ;;
  appendChild ;;
  emit (CreateCanvas (w dims) (h dims)) ;;
  (if getContext_2d p then ret tt
   else removeChild ;; throw CanvasContextError) ;;
  anim <- lottie_loadAnimation p animationData ;;
  tryFinally (convertBodyOn total p anim options (w dims) (h dims)) cleanup.

Definition convertOn (total : Z) (p : Platform)
    (animationData : LottieFile.t) (options : ConvertOptions)
  : Outcome unit * Dom * list Event :=
  renderAndConvertOn total p animationData options initialDom.

(** A document with a frame range of 31 frames at 30 frames per second. *)
Definition thirtyOneFrameDocument : LottieFile.t := document 30 0 31 [].

(** * Properties *)

(** ** Rounding *)

Lemma Math_round_mono (x y : Q) :
  (x <= y)%Q -> Js.Math_round x <= Js.Math_round y.
Proof.
  intros Hxy. unfold Js.Math_round.
  apply Qfloor_resp_le. now apply Qplus_le_l.
Qed.

Lemma Math_round_step (x y : Q) :
  (x + 1 <= y)%Q -> Js.Math_round x + 1 <= Js.Math_round y.
Proof.
  intros Hxy. unfold Js.Math_round.
  rewrite <- (Qfloor_Z (Qfloor (x + (1 # 2)) + 1)).
  apply Qfloor_resp_le.
  rewrite inject_Z_plus.
  apply Qle_trans with (x + (1 # 2) + 1)%Q.
  - apply Qplus_le_l. apply Qfloor_le.
  - setoid_replace (x + (1 # 2) + 1)%Q with (x + 1 + (1 # 2))%Q by ring.
    now apply Qplus_le_l.
Qed.

Lemma inject_Z_div_mono (total i j : Z) :
  0 < total -> i <= j ->
  (inject_Z i / inject_Z total <= inject_Z j / inject_Z total)%Q.
Proof.
  intros Ht Hij. unfold Qdiv.
  apply Qmult_le_compat_r.
  - now rewrite <- Zle_Qle.
  - apply Qlt_le_weak, Qinv_lt_0_compat.
    replace 0%Q with (inject_Z 0) by reflexivity. now rewrite <- Zlt_Qlt.
Qed.

Lemma inject_Z_div_range (total i : Z) :
  0 < total -> 0 <= i < total ->
  (0 <= inject_Z i / inject_Z total)%Q /\ (inject_Z i / inject_Z total <= 1)%Q.
Proof.
  intros Ht [Hi0 Hit].
  assert (Hpos : (0 < inject_Z total)%Q).
  { replace 0%Q with (inject_Z 0) by reflexivity. now rewrite <- Zlt_Qlt. }
  split.
  - apply Qle_shift_div_l; [exact Hpos|].
    rewrite Qmult_0_l. replace 0%Q with (inject_Z 0) by reflexivity.
    now rewrite <- Zle_Qle.
  - apply Qle_shift_div_r; [exact Hpos|].
    rewrite Qmult_1_l. rewrite <- Zle_Qle. lia.
Qed.

Lemma odd_rem_2 (n : Z) : Z.odd n = negb (Z.rem n 2 =? 0).
Proof.
  pose proof (Z.rem_bound_abs n 2 ltac:(lia)) as Hb.
  pose proof (Z.rem_eq n 2 ltac:(lia)) as He.
  assert (Hn : n = Z.rem n 2 + 2 * Z.quot n 2) by lia.
  rewrite Hn at 1. rewrite Z.odd_add_mul_2.
  assert (Hr : Z.rem n 2 = 0 \/ Z.rem n 2 = 1 \/ Z.rem n 2 = -1) by lia.
  destruct Hr as [-> | [-> | ->]]; reflexivity.
Qed.

Lemma ensureEven_spec (n : Z) :
  ensureEven n = (if Z.odd n then n - 1 else n) /\ Z.even (ensureEven n) = true.
Proof.
  unfold ensureEven. rewrite <- odd_rem_2.
  destruct (Z.odd n) eqn:Ho; split; try reflexivity.
  - rewrite Z.even_sub, <- Z.negb_odd, Ho. reflexivity.
  - now rewrite <- Z.negb_odd, Ho.
Qed.

Lemma getDimensions_cases (res : Resolution.t) (ow oh : Q) :
  getDimensions res ow oh = {| w := 1280; h := 720 |} \/
  getDimensions res ow oh = {| w := 1920; h := 1080 |} \/
  getDimensions res ow oh = {| w := 3840; h := 2160 |}.
Proof.
  unfold getDimensions.
  destruct (String.eqb res Resolution.HD); [now left|].
  destruct (String.eqb res Resolution.FHD); [now right; left|].
  destruct (String.eqb res Resolution.UHD); [now right; right|].
  now right; left.
Qed.

(** C5.  The dimension resolver maps the resolution classes by the fixed
    table HD -> 1280x720, FHD -> 1920x1080, UHD -> 3840x2160; each
    dimension it returns went through the step that decrements an odd
    value by one; for every resolution its width and height are even and
    positive.  It is a total function: it has a value on every input. *)
Theorem C5_getDimensions_table :
  (forall ow oh,
      getDimensions Resolution.HD ow oh = {| w := 1280; h := 720 |} /\
      getDimensions Resolution.FHD ow oh = {| w := 1920; h := 1080 |} /\
      getDimensions Resolution.UHD ow oh = {| w := 3840; h := 2160 |}) /\
  (forall n, ensureEven n = if Z.odd n then n - 1 else n) /\
  (forall res ow oh,
      exists tw th,
        getDimensions res ow oh = {| w := ensureEven tw; h := ensureEven th |}) /\
  (forall res ow oh,
      let d := getDimensions res ow oh in
      Z.even (w d) = true /\ Z.even (h d) = true /\ 0 < w d /\ 0 < h d).
Proof.
  split; [|split; [|split]].
  - intros ow oh. repeat split; reflexivity.
  - intros n. apply ensureEven_spec.
  - intros res ow oh. unfold getDimensions.
    destruct (if String.eqb res Resolution.HD then _ else _) as [tw th].
    now exists tw, th.
  - intros res ow oh d. subst d.
    destruct (getDimensions_cases res ow oh) as [-> | [-> | ->]];
      cbn; repeat split; lia.
Qed.

(** C10.  The resolved dimensions depend on the resolution class alone:
    two pairs of intrinsic document dimensions give the same result; and
    a resolution value outside HD, FHD and UHD gives the FHD default
    1920x1080. *)
Theorem C10_getDimensions_ignores_original :
  (forall res w1 h1 w2 h2,
      getDimensions res w1 h1 = getDimensions res w2 h2) /\
  (forall res ow oh,
      res <> Resolution.HD -> res <> Resolution.FHD -> res <> Resolution.UHD ->
      getDimensions res ow oh = {| w := 1920; h := 1080 |}).
Proof.
  split.
  - intros. reflexivity.
  - intros res ow oh Hhd Hfhd Huhd. unfold getDimensions.
    apply String.eqb_neq in Hhd, Hfhd, Huhd.
    now rewrite Hhd, Hfhd, Huhd.
Qed.

Lemma C10_witness :
  ("480p"%string <> Resolution.HD /\ "480p"%string <> Resolution.FHD /\
   "480p"%string <> Resolution.UHD) /\
  getDimensions "480p"%string 640 480 = {| w := 1920; h := 1080 |}.
Proof.
  assert (H : "480p"%string <> Resolution.HD /\ "480p"%string <> Resolution.FHD /\
              "480p"%string <> Resolution.UHD) by (repeat split; discriminate).
  split; [exact H|].
  destruct H as (H1 & H2 & H3).
  exact (proj2 C10_getDimensions_ignores_original "480p"%string 640%Q 480%Q H1 H2 H3).
Defined.

(** ** Sample times *)

Lemma lottieFrame_mono (anim : AnimationItem.t) (total i j : Z) :
  0 < total -> (0 <= AnimationItem.totalFrames anim)%Q -> i <= j ->
  (lottieFrame anim total i <= lottieFrame anim total j)%Q.
Proof.
  intros Ht Htf Hij. unfold lottieFrame.
  apply Qmult_le_compat_r; [|exact Htf].
  now apply inject_Z_div_mono.
Qed.

Lemma lottieFrame_0 (anim : AnimationItem.t) (total : Z) :
  (lottieFrame anim total 0 == 0)%Q.
Proof. unfold lottieFrame, Qdiv. now rewrite !Qmult_0_l. Qed.

Lemma lottieFrame_last (anim : AnimationItem.t) (total i : Z) :
  0 < total -> (0 <= AnimationItem.totalFrames anim)%Q -> 0 <= i < total ->
  (lottieFrame anim total i <= AnimationItem.totalFrames anim)%Q.
Proof.
  intros Ht Htf Hi. unfold lottieFrame.
  destruct (inject_Z_div_range total i Ht Hi) as [_ Hle].
  rewrite <- (Qmult_1_l (AnimationItem.totalFrames anim)) at 2.
  now apply Qmult_le_compat_r.
Qed.

(** ** Key frames *)

Lemma keyFrame_divide (fps i : Z) :
  fps <> 0 -> (keyFrame fps i = true <-> (fps * 2 | i)).
Proof.
  intros Hfps. unfold keyFrame, Js.rem_is_zero, Js.rem.
  assert (Hm : fps * 2 <> 0) by lia.
  apply Z.eqb_neq in Hm as Hmb. rewrite Hmb.
  rewrite Z.eqb_eq. now apply Z.rem_divide.
Qed.

Lemma keyFrame_mod (fps i : Z) :
  fps <> 0 -> keyFrame fps i = (i mod (fps * 2) =? 0).
Proof.
  intros Hfps.
  assert (Hm : fps * 2 <> 0) by lia.
  apply eq_true_iff_eq. rewrite keyFrame_divide by exact Hfps.
  rewrite Z.eqb_eq. symmetry. now apply Z.mod_divide.
Qed.

Lemma keyFrame_multiples (fps i : Z) :
  0 < fps -> 0 <= i ->
  (keyFrame fps i = true <-> exists k : nat, i = Z.of_nat k * (fps * 2)).
Proof.
  intros Hfps Hi. rewrite keyFrame_divide by lia. split.
  - intros [q Hq]. exists (Z.to_nat q).
    rewrite Z2Nat.id; [exact Hq|]. nia.
  - intros [k Hk]. now exists (Z.of_nat k).
Qed.

(** ** Timestamps *)

Lemma frameInterval_ge_1 (fps : Z) :
  0 < fps <= 1000000 -> (1 <= frameIntervalMicroseconds fps)%Q.
Proof.
  intros [Hpos Hle]. unfold frameIntervalMicroseconds.
  apply Qle_shift_div_l.
  - replace 0%Q with (inject_Z 0) by reflexivity. now rewrite <- Zlt_Qlt.
  - rewrite Qmult_1_l. now rewrite <- Zle_Qle.
Qed.

Lemma timestamp_lt (fps i j : Z) :
  0 < fps <= 1000000 -> i < j -> timestamp fps i < timestamp fps j.
Proof.
  intros Hfps Hij. unfold timestamp.
  apply Z.lt_le_trans
    with (Js.Math_round (inject_Z i * frameIntervalMicroseconds fps) + 1);
    [lia|].
  apply Math_round_step.
  pose proof (frameInterval_ge_1 fps Hfps) as H1.
  apply Qle_trans with (inject_Z (i + 1) * frameIntervalMicroseconds fps)%Q.
  - rewrite inject_Z_plus. 
    setoid_replace ((inject_Z i + inject_Z 1) * frameIntervalMicroseconds fps)%Q
      with (inject_Z i * frameIntervalMicroseconds fps
            + frameIntervalMicroseconds fps)%Q by ring.
    now apply Qplus_le_r.
  - apply Qmult_le_compat_r.
    + rewrite <- Zle_Qle. lia.
    + apply Qle_trans with 1%Q; [discriminate|exact H1].
Qed.

(** ** Percentages *)

Lemma pct_mono (total i j : Z) :
  0 < total -> i <= j -> pct total i <= pct total j.
Proof.
  intros Ht Hij. unfold pct.
  apply Z.add_le_mono_l, Math_round_mono.
  apply Qmult_le_compat_r; [|discriminate].
  now apply inject_Z_div_mono.
Qed.

Lemma pct_range (total i : Z) :
  0 < total -> 0 <= i < total -> 10 <= pct total i <= 95.
Proof.
  intros Ht Hi. unfold pct.
  destruct (inject_Z_div_range total i Ht Hi) as [H0 H1].
  assert (Hlo : Js.Math_round 0 <= Js.Math_round (inject_Z i / inject_Z total * 85)).
  { apply Math_round_mono.
    setoid_replace 0%Q with (0 * 85)%Q by ring.
    apply Qmult_le_compat_r; [exact H0|discriminate]. }
  assert (Hhi : Js.Math_round (inject_Z i / inject_Z total * 85) <= Js.Math_round 85).
  { apply Math_round_mono.
    setoid_replace 85%Q with (1 * 85)%Q at 2 by ring.
    apply Qmult_le_compat_r; [exact H1|discriminate]. }
  change (Js.Math_round 0) with 0 in Hlo.
  change (Js.Math_round 85) with 85 in Hhi.
  lia.
Qed.

(** ** Frame counts *)

Lemma positive_frames_fps_nonzero (anim : AnimationItem.t) (fps : Z) :
  0 < totalOutputFrames anim fps -> fps <> 0.
Proof.
  intros Hpos ->. unfold totalOutputFrames, Js.Math_ceil in Hpos.
  assert (H0 : (durationSeconds anim * inject_Z 0 == 0)%Q) by ring.
  rewrite H0 in Hpos. now cbn in Hpos.
Qed.

Lemma effectiveFrameRate_nonzero (anim : AnimationItem.t) :
  ~ (effectiveFrameRate anim == 0)%Q.
Proof.
  unfold effectiveFrameRate, Js.or_default.
  destruct (Qeq_bool (AnimationItem.frameRate anim) 0) eqn:E.
  - discriminate.
  - now apply Qeq_bool_neq.
Qed.

Section Prefix.
Context {A : Type}.

Lemma prefix_refl (l : list A) : prefix l l.
Proof. exists []. now rewrite app_nil_r. Qed.

Lemma prefix_nil (l : list A) : prefix [] l.
Proof. now exists l. Qed.

Lemma prefix_app (l l1 l2 : list A) :
  prefix l1 l2 -> prefix (l ++ l1) (l ++ l2).
Proof. intros [r ->]. exists r. now rewrite app_assoc. Qed.

Lemma prefix_cons (x : A) (l1 l2 : list A) :
  prefix l1 l2 -> prefix (x :: l1) (x :: l2).
Proof. apply (prefix_app [x]). Qed.

Lemma prefix_app_r (l1 l2 l3 : list A) :
  prefix l1 l2 -> prefix l1 (l2 ++ l3).
Proof. intros [r ->]. exists (r ++ l3). now rewrite app_assoc. Qed.

Lemma prefix_trans (l1 l2 l3 : list A) :
  prefix l1 l2 -> prefix l2 l3 -> prefix l1 l3.
Proof. intros [r ->] [r' ->]. exists (r ++ r'). now rewrite app_assoc. Qed.

Lemma prefix_Forall (P : A -> Prop) (l1 l2 : list A) :
  prefix l1 l2 -> Forall P l2 -> Forall P l1.
Proof. intros [r ->] H. now apply Forall_app in H. Qed.

Lemma prefix_length (l1 l2 : list A) :
  prefix l1 l2 -> (length l1 <= length l2)%nat.
Proof. intros [r ->]. rewrite length_app. lia. Qed.

Lemma prefix_firstn (l1 l2 : list A) :
  prefix l1 l2 -> l1 = firstn (length l1) l2.
Proof.
  intros [r ->]. rewrite firstn_app, Nat.sub_diag, firstn_all. cbn.
  now rewrite app_nil_r.
Qed.
End Prefix.

Section FilterMap.
Context {A B : Type} (f : A -> option B).

Lemma filterMap_app (l1 l2 : list A) :
  filterMap f (l1 ++ l2) = filterMap f l1 ++ filterMap f l2.
Proof.
  induction l1 as [|x l1 IH]; cbn; [reflexivity|].
  destruct (f x); cbn; now rewrite IH.
Qed.

Lemma filterMap_prefix (l1 l2 : list A) :
  prefix l1 l2 -> prefix (filterMap f l1) (filterMap f l2).
Proof. intros [r ->]. exists (filterMap f r). apply filterMap_app. Qed.
End FilterMap.

Section Loop.
Variables (p : Platform) (anim : AnimationItem.t) (fps total : Z).

Lemma encodeLoop_log (n : nat) :
  forall (i : Z) (d : Dom),
  exists o l,
    encodeLoop p anim fps total n i d = (o, d, l) /\
    ((o = Returned tt /\ l = loopEvents anim fps total n i) \/
     (exists e, o = Thrown e /\ loopError e /\
                prefix l (loopEvents anim fps total n i))).
Proof.
  induction n as [|k IH]; intros i d.
  - exists (Returned tt), []. split; [reflexivity|]. now left.
  - destruct (IH (i + 1) d) as (o & l & Hrun & Hlog).
    unfold loopEvents in *. cbn [Zseq flat_map].
    cbn [encodeLoop]. unfold bind, emit, require, ret, throw.
    destruct (querySelector_svg p i).
    2:{ eexists _, _. split; [reflexivity|]. right.
        exists RenderSurfaceMissing. unfold loopError. split; [reflexivity|].
        split; [tauto|]. cbn. apply prefix_cons, prefix_nil. }
    destruct (loadImage_resolves p i).
    2:{ eexists _, _. split; [reflexivity|]. right.
        exists ImageLoadError. unfold loopError. split; [reflexivity|].
        split; [tauto|]. cbn. apply prefix_cons, prefix_nil. }
    destruct (encode_accepts p i).
    2:{ eexists _, _. split; [reflexivity|]. right.
        exists EncoderRuntimeError. unfold loopError. split; [reflexivity|].
        split; [tauto|]. cbn. do 2 apply prefix_cons. apply prefix_nil. }
    unfold frameEvents.
    destruct (progressDue total i); rewrite Hrun; cbn;
      (eexists _, _; split; [reflexivity|]);
      (destruct Hlog as [[-> ->] | (e & -> & He & Hp)];
       [left; split; reflexivity
       |right; exists e; split; [reflexivity|]; split; [exact He|];
        repeat apply prefix_cons; exact Hp]).
Qed.
End Loop.

Section Body.
Variables (p : Platform) (anim : AnimationItem.t) (options : ConvertOptions)
          (w h : Z).

Let total := totalOutputFrames anim (fps options).

Lemma convertBody_log (d : Dom) :
  exists o l,
    convertBody p anim options w h d = (o, d, l) /\
    ((total <= 0 /\ o = Thrown InvalidDuration /\ l = []) \/
     (0 < total /\
      ((o = Returned tt /\ l = bodyEvents p anim options w h) \/
       (exists e, o = Thrown e /\ lateError e /\
                  prefix l (bodyEvents p anim options w h))))).
Proof.
  unfold convertBody, bodyEvents. fold total.
  destruct (total <=? 0) eqn:Et.
  - apply Z.leb_le in Et.
    exists (Thrown InvalidDuration), []. split; [reflexivity|]. now left.
  - apply Z.leb_gt in Et.
    destruct (encodeLoop_log p anim (fps options) total (Z.to_nat total) 0 d)
      as (o & l & Hrun & Hlog).
    cbn [negb]. unfold bind, emit, require, ret, throw. cbn -[encodeLoop].
    destruct (configure_accepts p _).
    2:{ eexists _, _. split; [reflexivity|]. right. split; [exact Et|].
        right. exists EncoderConfigRejected. split; [reflexivity|].
        split; [now left|]. cbn. do 3 apply prefix_cons. apply prefix_nil. }
    rewrite Hrun.
    destruct Hlog as [[-> ->] | (e & -> & He & Hp)].
    + destruct (flush_resolves p).
      2:{ eexists _, _. split; [reflexivity|]. right. split; [exact Et|].
          right. exists EncoderRuntimeError. split; [reflexivity|].
          split; [right; left; unfold loopError; tauto|].
          cbn. do 5 apply prefix_cons. apply prefix_app.
          apply prefix_cons, prefix_nil. }
      destruct (finalize_succeeds p).
      2:{ eexists _, _. split; [reflexivity|]. right. split; [exact Et|].
          right. exists MuxError. split; [reflexivity|].
          split; [now right; right|].
          cbn. do 5 apply prefix_cons. apply prefix_app.
          do 2 apply prefix_cons. apply prefix_nil. }
      eexists _, _. split; [reflexivity|]. right. split; [exact Et|].
      left. split; reflexivity.
    + eexists _, _. split; [reflexivity|]. right. split; [exact Et|].
      right. exists e. split; [reflexivity|]. split; [now right; left|].
      cbn. do 5 apply prefix_cons.
      now apply prefix_app_r.
Qed.
End Body.

(** The four ways a conversion can go. *)
Lemma convert_unfold (p : Platform) (animationData : LottieFile.t)
    (options : ConvertOptions) :
  let dims := getDimensions (resolution options)
                (LottieFile.w animationData) (LottieFile.h animationData) in
  let setup := [CreateContainer (w dims) (h dims); AppendContainer;
                CreateCanvas (w dims) (h dims)] in
  convert p animationData options =
    if negb (VideoEncoder_defined p) then
      (Thrown EncodingUnsupported, initialDom, [])
    else if negb (getContext_2d p) then
      (Thrown CanvasContextError, initialDom, setup ++ [RemoveContainer])
    else
      match loadAnimation p animationData with
      | None =>
          (Thrown AnimationLoadError,
           {| containerInBody := true; animAlive := false |}, setup)
      | Some anim =>
          let '(o, _, l) :=
            convertBody p anim options (w dims) (h dims)
              {| containerInBody := true; animAlive := true |} in
          (o, initialDom,
           setup ++ [LoadAnimation] ++ l ++ [DestroyAnimation; RemoveContainer])
      end.
Proof.
  intros dims setup. unfold convert, renderAndConvert. fold dims.
  destruct (VideoEncoder_defined p); [|reflexivity].
  destruct (getContext_2d p); [|reflexivity].
  cbn [negb]. unfold lottie_loadAnimation.
  destruct (loadAnimation p animationData) as [anim|]; [|reflexivity].
  destruct (convertBody_log p anim options (w dims) (h dims)
              {| containerInBody := true; animAlive := true |})
    as (o & l & Hrun & _).
  unfold bind, tryFinally, require, emit, appendChild, getDom, putDom, ret,
    cleanup, anim_destroy, removeChild, initialDom.
  cbn -[convertBody]. unfold bind. rewrite Hrun. cbn.
  subst setup. cbn. reflexivity.
Qed.

(** ** Sorted lists *)

Section SortedLists.
Context {A : Type} (R : A -> A -> Prop).

Lemma StronglySorted_app (l1 l2 : list A) :
  StronglySorted R l1 -> StronglySorted R l2 ->
  (forall x y, In x l1 -> In y l2 -> R x y) ->
  StronglySorted R (l1 ++ l2).
Proof.
  induction 1 as [|a l1 Hs IH Ha]; intros H2 Hx; cbn; [exact H2|].
  constructor.
  - apply IH; [exact H2|]. intros x y Hi Hj. apply Hx; [now right|exact Hj].
  - apply Forall_app. split; [exact Ha|].
    apply Forall_forall. intros y Hy. apply Hx; [now left|exact Hy].
Qed.

Lemma StronglySorted_prefix (l1 l2 : list A) :
  prefix l1 l2 -> StronglySorted R l2 -> StronglySorted R l1.
Proof.
  intros [r ->]. induction l1 as [|a l1 IH]; cbn; intros H; [constructor|].
  apply StronglySorted_inv in H as [Hs Ha]. constructor; [now apply IH|].
  now apply Forall_app in Ha.
Qed.

Lemma StronglySorted_filter (f : A -> bool) (l : list A) :
  StronglySorted R l -> StronglySorted R (filter f l).
Proof.
  induction 1 as [|a l Hs IH Ha]; cbn; [constructor|].
  destruct (f a); [|exact IH]. constructor; [exact IH|].
  apply Forall_forall. intros x Hx. apply filter_In in Hx as [Hx _].
  revert x Hx. now apply Forall_forall.
Qed.
End SortedLists.

Lemma StronglySorted_map_on {A B} (RA : A -> A -> Prop) (RB : B -> B -> Prop)
    (P : A -> Prop) (f : A -> B) (l : list A) :
  (forall x y, P x -> P y -> RA x y -> RB (f x) (f y)) ->
  Forall P l -> StronglySorted RA l -> StronglySorted RB (map f l).
Proof.
  intros Hf HP. induction 1 as [|a l Hs IH Ha]; cbn; [constructor|].
  apply Forall_cons_iff in HP as [Pa Pl].
  constructor; [now apply IH|].
  apply Forall_map, Forall_forall. intros x Hx.
  rewrite Forall_forall in Ha, Pl. now apply Hf; auto.
Qed.

(** ** The loop counter *)

Lemma Zseq_In (start : Z) (len : nat) (x : Z) :
  In x (Zseq start len) <-> start <= x < start + Z.of_nat len.
Proof.
  revert start. induction len as [|k IH]; intros start; cbn [Zseq In].
  - lia.
  - rewrite IH. lia.
Qed.

Lemma Zseq_sorted (start : Z) (len : nat) :
  StronglySorted Z.lt (Zseq start len).
Proof.
  revert start. induction len as [|k IH]; intros start; cbn; constructor.
  - apply IH.
  - apply Forall_forall. intros x Hx. apply Zseq_In in Hx. lia.
Qed.

Lemma Zseq_length (start : Z) (len : nat) : length (Zseq start len) = len.
Proof.
  revert start. induction len as [|k IH]; intros start; cbn; [reflexivity|].
  now rewrite IH.
Qed.

Lemma Zseq_nth (start : Z) (len k : nat) :
  (k < len)%nat -> nth_error (Zseq start len) k = Some (start + Z.of_nat k).
Proof.
  revert start k. induction len as [|n IH]; intros start k Hk; [lia|].
  destruct k as [|k]; cbn.
  - f_equal. lia.
  - rewrite IH by lia. f_equal. lia.
Qed.

Lemma Zseq_range (total : Z) :
  Forall (fun i => 0 <= i < total) (Zseq 0 (Z.to_nat total)).
Proof. apply Forall_forall. intros x Hx. apply Zseq_In in Hx. lia. Qed.

(** ** Projections of the uninterrupted log *)

Section Projections.
Variables (anim : AnimationItem.t) (fps total : Z).

Lemma percents_loopEvents (n : nat) (i : Z) :
  percents (loopEvents anim fps total n i)
  = map (pct total) (filter (progressDue total) (Zseq i n)).
Proof.
  unfold loopEvents, percents. revert i.
  induction n as [|k IH]; intros i; cbn [Zseq flat_map filter map];
    [reflexivity|].
  rewrite filterMap_app, IH. unfold frameEvents.
  destruct (progressDue total i); reflexivity.
Qed.

Lemma timestamps_loopEvents (n : nat) (i : Z) :
  timestamps (loopEvents anim fps total n i) = map (timestamp fps) (Zseq i n).
Proof.
  unfold loopEvents, timestamps. revert i.
  induction n as [|k IH]; intros i; cbn [Zseq flat_map map]; [reflexivity|].
  rewrite filterMap_app, IH. unfold frameEvents.
  destruct (progressDue total i); reflexivity.
Qed.

Lemma keyFlags_loopEvents (n : nat) (i : Z) :
  filterMap keyFlagOf (loopEvents anim fps total n i)
  = map (keyFrame fps) (Zseq i n).
Proof.
  unfold loopEvents. revert i.
  induction n as [|k IH]; intros i; cbn [Zseq flat_map map]; [reflexivity|].
  rewrite filterMap_app, IH. unfold frameEvents.
  destruct (progressDue total i); reflexivity.
Qed.

Lemma seeks_loopEvents (n : nat) (i : Z) :
  filterMap seekOf (loopEvents anim fps total n i)
  = map (lottieFrame anim total) (Zseq i n).
Proof.
  unfold loopEvents. revert i.
  induction n as [|k IH]; intros i; cbn [Zseq flat_map map]; [reflexivity|].
  rewrite filterMap_app, IH. unfold frameEvents.
  destruct (progressDue total i); reflexivity.
Qed.
End Projections.

Section BodyProjections.
Variables (p : Platform) (anim : AnimationItem.t) (options : ConvertOptions)
          (w h : Z).
Let total := totalOutputFrames anim (fps options).

Lemma percents_bodyEvents :
  percents (bodyEvents p anim options w h)
  = [5; 10]
    ++ map (pct total) (filter (progressDue total) (Zseq 0 (Z.to_nat total)))
    ++ [98].
Proof.
  unfold bodyEvents. fold total. unfold percents.
  cbn [app filterMap percentOf]. rewrite filterMap_app.
  fold (percents (loopEvents anim (fps options) total (Z.to_nat total) 0)).
  now rewrite percents_loopEvents.
Qed.

Lemma timestamps_bodyEvents :
  timestamps (bodyEvents p anim options w h)
  = map (timestamp (fps options)) (Zseq 0 (Z.to_nat total)).
Proof.
  unfold bodyEvents. fold total. unfold timestamps.
  cbn [app filterMap timestampOf]. rewrite filterMap_app.
  fold (timestamps (loopEvents anim (fps options) total (Z.to_nat total) 0)).
  rewrite timestamps_loopEvents. cbn. now rewrite app_nil_r.
Qed.

Lemma keyFlags_bodyEvents :
  filterMap keyFlagOf (bodyEvents p anim options w h)
  = map (keyFrame (fps options)) (Zseq 0 (Z.to_nat total)).
Proof.
  unfold bodyEvents. fold total.
  cbn [app filterMap keyFlagOf]. rewrite filterMap_app.
  rewrite keyFlags_loopEvents. cbn. now rewrite app_nil_r.
Qed.

Lemma seeks_bodyEvents :
  filterMap seekOf (bodyEvents p anim options w h)
  = map (lottieFrame anim total) (Zseq 0 (Z.to_nat total)).
Proof.
  unfold bodyEvents. fold total.
  cbn [app filterMap seekOf]. rewrite filterMap_app.
  rewrite seeks_loopEvents. cbn. now rewrite app_nil_r.
Qed.

Lemma percents_bodyEvents_sorted :
  StronglySorted Z.le (percents (bodyEvents p anim options w h)).
Proof.
  rewrite percents_bodyEvents.
  destruct (Z.le_gt_cases total 0) as [Hle | Hpos].
  { replace (Z.to_nat total) with O by lia. cbn.
    repeat constructor; lia. }
  assert (Hin : forall x,
    In x (map (pct total)
            (filter (progressDue total) (Zseq 0 (Z.to_nat total)))) ->
    10 <= x <= 95).
  { intros x Hx. apply in_map_iff in Hx as (i & <- & Hi).
    apply filter_In in Hi as [Hi _]. apply Zseq_In in Hi.
    apply pct_range; lia. }
  apply (StronglySorted_app Z.le [5; 10]).
  - repeat constructor; lia.
  - apply StronglySorted_app.
    + apply StronglySorted_map_on
        with (RA := Z.lt) (P := fun _ => True).
      * intros x y _ _ Hxy. apply pct_mono; lia.
      * apply Forall_forall. trivial.
      * apply StronglySorted_filter, Zseq_sorted.
    + repeat constructor.
    + intros x y Hx [<- | []]. apply Hin in Hx. lia.
  - intros x y Hx Hy.
    assert (Hy' : 10 <= y).
    { apply in_app_or in Hy as [Hy | [<- | []]]; [|lia].
      apply Hin in Hy. lia. }
    destruct Hx as [<- | [<- | []]]; lia.
Qed.

Lemma percents_bodyEvents_range :
  Forall (fun x => 5 <= x <= 98) (percents (bodyEvents p anim options w h)).
Proof.
  rewrite percents_bodyEvents.
  apply Forall_app. split; [repeat constructor; lia|].
  apply Forall_app. split; [|repeat constructor; lia].
  apply Forall_forall. intros x Hx.
  apply in_map_iff in Hx as (i & <- & Hi).
  apply filter_In in Hi as [Hi _]. apply Zseq_In in Hi.
  assert (0 < total) by lia.
  pose proof (pct_range total i). lia.
Qed.

Lemma timestamps_bodyEvents_sorted :
  0 < fps options <= 1000000 ->
  StronglySorted Z.lt (timestamps (bodyEvents p anim options w h)).
Proof.
  intros Hfps. rewrite timestamps_bodyEvents.
  apply StronglySorted_map_on with (RA := Z.lt) (P := fun _ => True).
  - intros x y _ _ Hxy. now apply timestamp_lt.
  - apply Forall_forall. trivial.
  - apply Zseq_sorted.
Qed.
End BodyProjections.

Lemma firstn_Zseq (k len : nat) (start : Z) :
  firstn k (Zseq start len) = Zseq start (Nat.min k len).
Proof.
  revert start len. induction k as [|k IH]; intros start [|len]; cbn;
    try reflexivity.
  now rewrite IH.
Qed.

Lemma prefix_map_Zseq {B} (f : Z -> B) (l : list B) (start : Z) (len : nat) :
  prefix l (map f (Zseq start len)) ->
  l = map f (Zseq start (length l)) /\ (length l <= len)%nat.
Proof.
  intros Hp.
  pose proof (prefix_length _ _ Hp) as Hlen.
  rewrite length_map, Zseq_length in Hlen.
  split; [|exact Hlen].
  rewrite (prefix_firstn _ _ Hp) at 1.
  rewrite firstn_map, firstn_Zseq. now rewrite Nat.min_l.
Qed.

Lemma rasters_loopEvents (anim : AnimationItem.t) (fps total : Z)
    (n : nat) (i : Z) :
  filterMap rasterOf (loopEvents anim fps total n i) = Zseq i n.
Proof.
  unfold loopEvents. revert i.
  induction n as [|k IH]; intros i; cbn [Zseq flat_map]; [reflexivity|].
  rewrite filterMap_app, IH. unfold frameEvents.
  destruct (progressDue total i); reflexivity.
Qed.

Lemma rasters_bodyEvents (p : Platform) (anim : AnimationItem.t)
    (options : ConvertOptions) (w h : Z) :
  filterMap rasterOf (bodyEvents p anim options w h)
  = Zseq 0 (Z.to_nat (totalOutputFrames anim (fps options))).
Proof.
  unfold bodyEvents. cbn [app filterMap rasterOf]. rewrite filterMap_app.
  rewrite rasters_loopEvents. cbn. now rewrite app_nil_r.
Qed.

Lemma configs_bodyEvents (p : Platform) (anim : AnimationItem.t)
    (options : ConvertOptions) (w h : Z) :
  filterMap configOf (bodyEvents p anim options w h)
  = [selectConfig (isConfigSupported p) (resolution options) w h (fps options)].
Proof.
  unfold bodyEvents. cbn [app filterMap configOf]. rewrite filterMap_app.
  assert (H : forall n i,
    filterMap configOf
      (loopEvents anim (fps options) (totalOutputFrames anim (fps options)) n i)
    = []).
  { unfold loopEvents. induction n as [|k IH]; intros i; cbn [Zseq flat_map];
      [reflexivity|].
    rewrite filterMap_app, IH. unfold frameEvents.
    destruct (progressDue _ i); reflexivity. }
  now rewrite H.
Qed.

Lemma filterMap_In {A B} (f : A -> option B) (l : list A) (x : A) (y : B) :
  In x l -> f x = Some y -> In y (filterMap f l).
Proof.
  intros Hx Hf. induction l as [|a l IH]; cbn; [contradiction|].
  destruct Hx as [-> | Hx].
  - rewrite Hf. now left.
  - destruct (f a); [right|]; now apply IH.
Qed.

(** ** The log of any conversion against the uninterrupted log *)

Lemma convert_projection {B} (f : Event -> option B) (p : Platform)
    (animationData : LottieFile.t) (options : ConvertOptions) :
  bodyProjection f ->
  let dims := getDimensions (resolution options)
                (LottieFile.w animationData) (LottieFile.h animationData) in
  let r := convert p animationData options in
  (filterMap f (logOf r) = [] /\ outcomeOf r <> Returned tt) \/
  (exists anim,
      VideoEncoder_defined p = true /\ getContext_2d p = true /\
      loadAnimation p animationData = Some anim /\
      0 < totalOutputFrames anim (fps options) /\
      outcomeOf r <> Thrown InvalidDuration /\
      prefix (filterMap f (logOf r))
             (filterMap f (bodyEvents p anim options (w dims) (h dims))) /\
      (outcomeOf r = Returned tt ->
       filterMap f (logOf r)
       = filterMap f (bodyEvents p anim options (w dims) (h dims)))).
Proof.
  intros (Hcc & Hac & Hrc & Hcv & Hla & Hda) dims r.
  subst r. rewrite convert_unfold. fold dims.
  destruct (VideoEncoder_defined p); cbn [negb].
  2:{ left. split; [reflexivity|discriminate]. }
  destruct (getContext_2d p); cbn [negb].
  2:{ left. cbn. rewrite Hcc, Hac, Hcv, Hrc. split; [reflexivity|discriminate]. }
  destruct (loadAnimation p animationData) as [anim|].
  2:{ left. cbn. rewrite Hcc, Hac, Hcv. split; [reflexivity|discriminate]. }
  destruct (convertBody_log p anim options (w dims) (h dims)
              {| containerInBody := true; animAlive := true |})
    as (o & l & Hrun & Hlog).
  rewrite Hrun. unfold logOf, outcomeOf. cbn [fst snd].
  assert (Hproj : filterMap f
            ([CreateContainer (w dims) (h dims); AppendContainer;
              CreateCanvas (w dims) (h dims)] ++
             [LoadAnimation] ++ l ++ [DestroyAnimation; RemoveContainer])
          = filterMap f l).
  { cbn [app filterMap]. rewrite Hcc, Hac, Hcv, Hla, filterMap_app.
    cbn. rewrite Hda, Hrc. apply app_nil_r. }
  rewrite Hproj.
  destruct Hlog as [(Hle & -> & ->) | (Hpos & Hlog)].
  - left. split; [reflexivity|discriminate].
  - right. exists anim. repeat split; try assumption.
    + destruct Hlog as [[-> _] | (e & -> & He & _)]; [discriminate|].
      intros [= ->]. unfold lateError, loopError in He.
      repeat destruct He as [He | He]; discriminate.
    + destruct Hlog as [[_ ->] | (e & _ & _ & Hp)];
        [apply prefix_refl|now apply filterMap_prefix].
    + intros ->. destruct Hlog as [[_ ->] | (e & [=] & _)]. reflexivity.
Qed.

Ltac body_projection := repeat split; intros; reflexivity.

(** The Dom after a conversion, and the raised [InvalidDuration]. *)
Lemma convert_InvalidDuration (p : Platform) (animationData : LottieFile.t)
    (options : ConvertOptions) (anim : AnimationItem.t) :
  VideoEncoder_defined p = true -> getContext_2d p = true ->
  loadAnimation p animationData = Some anim ->
  let dims := getDimensions (resolution options)
                (LottieFile.w animationData) (LottieFile.h animationData) in
  let r := convert p animationData options in
  (totalOutputFrames anim (fps options) <= 0 ->
   r = (Thrown InvalidDuration, initialDom,
        [CreateContainer (w dims) (h dims); AppendContainer;
         CreateCanvas (w dims) (h dims); LoadAnimation;
         DestroyAnimation; RemoveContainer])) /\
  (0 < totalOutputFrames anim (fps options) ->
   outcomeOf r <> Thrown InvalidDuration).
Proof.
  intros Hve Hctx Hload dims r. subst r.
  rewrite convert_unfold. fold dims. rewrite Hve, Hctx, Hload. cbn [negb].
  destruct (convertBody_log p anim options (w dims) (h dims)
              {| containerInBody := true; animAlive := true |})
    as (o & l & Hrun & Hlog).
  rewrite Hrun. split.
  - intros Hle. destruct Hlog as [(_ & -> & ->) | (Hpos & _)]; [|lia].
    reflexivity.
  - intros Hpos. destruct Hlog as [(Hle & _) | (_ & Hlog)]; [lia|].
    unfold outcomeOf. cbn.
    destruct Hlog as [[-> _] | (e & -> & He & _)]; [discriminate|].
    intros [= ->]. unfold lateError, loopError in He.
    repeat destruct He as [He | He]; discriminate.
Qed.

Lemma convert_dom (p : Platform) (animationData : LottieFile.t)
    (options : ConvertOptions) :
  loadAnimation p animationData <> None \/
  VideoEncoder_defined p = false \/ getContext_2d p = false ->
  domOf (convert p animationData options) = initialDom.
Proof.
  intros H. rewrite convert_unfold.
  destruct (VideoEncoder_defined p); cbn [negb]; [|reflexivity].
  destruct (getContext_2d p); cbn [negb]; [|reflexivity].
  destruct (loadAnimation p animationData) as [anim|].
  - destruct (convertBody _ _ _ _ _ _) as [[o d'] l]. reflexivity.
  - destruct H as [H | [H | H]]; [now elim H|discriminate|discriminate].
Qed.

(** * The claims *)

Lemma encodeLoop_withProbe (p : Platform)
    (probe : EncoderConfig -> ProbeOutcome) (anim : AnimationItem.t)
    (fps total : Z) (n : nat) :
  forall i,
    encodeLoop (withProbe p probe) anim fps total n i
    = encodeLoop p anim fps total n i.
Proof.
  induction n as [|k IH]; intros i; cbn [encodeLoop]; [reflexivity|].
  now rewrite IH.
Qed.

Lemma convertBody_withProbe (p : Platform)
    (probe1 probe2 : EncoderConfig -> ProbeOutcome) (anim : AnimationItem.t)
    (options : ConvertOptions) (w h : Z) :
  selectConfig probe1 (resolution options) w h (fps options)
  = selectConfig probe2 (resolution options) w h (fps options) ->
  convertBody (withProbe p probe1) anim options w h
  = convertBody (withProbe p probe2) anim options w h.
Proof.
  intros Hsel. unfold convertBody.
  rewrite !encodeLoop_withProbe. cbn [isConfigSupported withProbe].
  rewrite Hsel. reflexivity.
Qed.

(** C2.  For every resolution class the negotiator selects the
    high-quality profile (40 Mb/s for UHD, 15 Mb/s otherwise) when the
    probe reports supported = true and the baseline profile (10 Mb/s)
    otherwise; a probe that throws selects the baseline profile, and the
    whole conversion then runs exactly as with a probe that reports
    supported = false, so that the exception never reaches the caller.
    The configuration handed to the encoder is the selected one. *)
Theorem C2_encoder_negotiation :
  (forall probe res w h fps,
      let high := highProfileConfig res w h fps in
      let main := mainProfileConfig w h fps in
      bitrate high = (if String.eqb res Resolution.UHD then 40000000
                      else 15000000) /\
      bitrate main = 10000000 /\
      selectConfig probe res w h fps
      = match probe high with
        | ProbeResolves true => high
        | _ => main
        end) /\
  (forall p animationData options,
      convert (withProbe p (fun _ => ProbeThrows)) animationData options
      = convert (withProbe p (fun _ => ProbeResolves false))
          animationData options) /\
  (forall p animationData options config,
      In (Configure config) (logOf (convert p animationData options)) ->
      let dims := getDimensions (resolution options)
                    (LottieFile.w animationData) (LottieFile.h animationData) in
      config = selectConfig (isConfigSupported p) (resolution options)
                 (w dims) (h dims) (fps options)).
Proof.
  split; [|split].
  - intros probe res w h fps high main. subst high main.
    split; [reflexivity|]. split; [reflexivity|].
    unfold selectConfig.
    destruct (probe _) as [[|]|]; reflexivity.
  - intros p animationData options.
    rewrite !convert_unfold.
    change (VideoEncoder_defined (withProbe p _))
      with (VideoEncoder_defined p).
    change (getContext_2d (withProbe p _)) with (getContext_2d p).
    change (loadAnimation (withProbe p _) animationData)
      with (loadAnimation p animationData).
    destruct (loadAnimation p animationData) as [anim|]; [|reflexivity].
    cbv beta iota.
    now rewrite (convertBody_withProbe p (fun _ => ProbeThrows)
                   (fun _ => ProbeResolves false)).
  - intros p animationData options config Hin dims.
    pose proof (filterMap_In configOf _ _ config Hin eq_refl) as Hc.
    destruct (convert_projection configOf p animationData options
                ltac:(body_projection))
      as [[Hnil _] | (anim & _ & _ & _ & _ & _ & Hp & _)].
    + rewrite Hnil in Hc. contradiction.
    + fold dims in Hp. rewrite configs_bodyEvents in Hp.
      destruct Hp as [rest Hrest].
      destruct (filterMap configOf (logOf (convert p animationData options)))
        as [|c l]; [contradiction|].
      injection Hrest as -> Hl.
      destruct l; [|discriminate].
      destruct Hc as [<- | []]. reflexivity.
Qed.

Lemma C2_witness :
  In (Configure (highProfileConfig Resolution.UHD 3840 2160 60))
     (logOf (convert workingPlatform oneSecondDocument options_UHD_60)) /\
  highProfileConfig Resolution.UHD 3840 2160 60
  = selectConfig (isConfigSupported workingPlatform) Resolution.UHD
      3840 2160 60.
Proof.
  assert (Hin : In (Configure (highProfileConfig Resolution.UHD 3840 2160 60))
                  (logOf (convert workingPlatform oneSecondDocument
                            options_UHD_60))).
  { vm_compute. do 7 right. left. reflexivity. }
  split; [exact Hin|].
  exact (proj2 (proj2 C2_encoder_negotiation) workingPlatform
           oneSecondDocument options_UHD_60 _ Hin).
Defined.

(** C3.  For a timing plan with totalOutputFrames >= 1 and
    sourceTotalFrames >= 0, the sample time of output frame i is
    (i / totalOutputFrames) * sourceTotalFrames; it is non-decreasing in
    i, it is 0 at i = 0, and at the last frame it is at most
    sourceTotalFrames.  The frames that a conversion seeks are these
    sample times at i = 0, 1, 2, ... *)
Theorem C3_sample_times (anim : AnimationItem.t) (total : Z) :
  1 <= total ->
  (0 <= AnimationItem.totalFrames anim)%Q ->
  (forall i,
      lottieFrame anim total i
      = ((inject_Z i / inject_Z total) * AnimationItem.totalFrames anim)%Q) /\
  (forall i j,
      i <= j -> (lottieFrame anim total i <= lottieFrame anim total j)%Q) /\
  (lottieFrame anim total 0 == 0)%Q /\
  (lottieFrame anim total (total - 1) <= AnimationItem.totalFrames anim)%Q /\
  (forall p animationData options,
      loadAnimation p animationData = Some anim ->
      total = totalOutputFrames anim (fps options) ->
      let seeks :=
        filterMap seekOf (logOf (convert p animationData options)) in
      seeks = map (lottieFrame anim total) (Zseq 0 (length seeks)) /\
      (length seeks <= Z.to_nat total)%nat).
Proof.
  intros Ht Htf.
  split; [reflexivity|]. split; [|split; [|split]].
  - intros i j Hij. apply lottieFrame_mono; [lia|exact Htf|exact Hij].
  - apply lottieFrame_0.
  - apply lottieFrame_last; [lia|exact Htf|lia].
  - intros p animationData options Hload -> seeks. subst seeks.
    destruct (convert_projection seekOf p animationData options
                ltac:(body_projection))
      as [[-> _] | (anim' & _ & _ & Hload' & _ & _ & Hp & _)].
    + split; [reflexivity|cbn; lia].
    + rewrite Hload in Hload'. injection Hload' as <-.
      rewrite seeks_bodyEvents in Hp.
      now apply prefix_map_Zseq in Hp.
Qed.

Lemma C3_witness :
  (lottieFrame {| AnimationItem.totalFrames := 30;
                  AnimationItem.frameRate := 30 |} 60 59
   <= 30)%Q.
Proof.
  refine (proj1 (proj2 (proj2 (proj2
    (C3_sample_times {| AnimationItem.totalFrames := 30;
                        AnimationItem.frameRate := 30 |} 60 _ _))))).
  - lia.
  - unfold Qle. simpl. lia.
Defined.

(** C4.  For every target fps and every output frame index i in
    [0, totalOutputFrames), the keyframe flag is true if and only if
    i mod (targetFps * 2) = 0, that is, for a positive fps, exactly at
    i = 0, targetFps*2, targetFps*4, ...; the k-th frame that a
    conversion submits to the encoder carries the flag of index k, and a
    conversion that succeeds submits the flags of all the indices
    0 .. totalOutputFrames - 1, in this order. *)
Theorem C4_keyframe_cadence :
  (forall anim fps i,
      0 <= i < totalOutputFrames anim fps ->
      keyFrame fps i = (i mod (fps * 2) =? 0)) /\
  (forall fps i,
      0 < fps -> 0 <= i ->
      (keyFrame fps i = true <-> exists k : nat, i = Z.of_nat k * (fps * 2))) /\
  (forall p animationData options,
      let r := convert p animationData options in
      let flags := filterMap keyFlagOf (logOf r) in
      flags = map (keyFrame (fps options)) (Zseq 0 (length flags)) /\
      (outcomeOf r = Returned tt ->
       exists anim,
         loadAnimation p animationData = Some anim /\
         0 < totalOutputFrames anim (fps options) /\
         flags
         = map (keyFrame (fps options))
             (Zseq 0 (Z.to_nat (totalOutputFrames anim (fps options)))) /\
         flags
         = map (fun i => i mod (fps options * 2) =? 0)
             (Zseq 0 (Z.to_nat (totalOutputFrames anim (fps options)))))).
Proof.
  split; [|split].
  - intros anim fps i Hi. apply keyFrame_mod.
    apply (positive_frames_fps_nonzero anim). lia.
  - intros fps i Hfps Hi. now apply keyFrame_multiples.
  - intros p animationData options r flags. subst flags r.
    destruct (convert_projection keyFlagOf p animationData options
                ltac:(body_projection))
      as [[-> Hne] | (anim & _ & _ & Hload & Hpos & _ & Hp & Heq)].
    + split; [reflexivity|]. intros Ho. now elim Hne.
    + rewrite keyFlags_bodyEvents in Hp, Heq. split.
      * now apply prefix_map_Zseq in Hp.
      * intros Ho. exists anim. split; [exact Hload|].
        split; [exact Hpos|]. split; [exact (Heq Ho)|].
        rewrite (Heq Ho). apply map_ext.
        intros i. apply keyFrame_mod.
        now apply (positive_frames_fps_nonzero anim).
Qed.

Lemma C4_witness :
  keyFrame 30 60 = (60 mod (30 * 2) =? 0) /\
  (keyFrame 30 120 = true <-> exists k : nat, 120 = Z.of_nat k * (30 * 2)) /\
  filterMap keyFlagOf
    (logOf (convert workingPlatform oneSecondDocument options_FHD_30))
  = map (keyFrame 30) (Zseq 0 30).
Proof.
  split; [|split].
  - apply (proj1 C4_keyframe_cadence
             {| AnimationItem.totalFrames := 90;
                AnimationItem.frameRate := 30 |} 30 60).
    vm_compute. split; [discriminate|reflexivity].
  - apply (proj1 (proj2 C4_keyframe_cadence) 30 120); lia.
  - destruct (proj2 (proj2 (proj2 C4_keyframe_cadence) workingPlatform
                       oneSecondDocument options_FHD_30) eq_refl)
      as (anim & Hload & _ & Hflags & _).
    injection Hload as <-. exact Hflags.
Defined.

(** C6.  The presentation timestamp of output frame i is
    round(i * (1,000,000 / targetFps)) microseconds; for a target fps of
    30, 60 or 120 it is strictly increasing in i, and so is the sequence
    of timestamps that any conversion submits to the encoder, which on
    success is the timestamps of the indices 0 .. totalOutputFrames - 1. *)
Theorem C6_timestamps_strictly_increasing :
  (forall fps i,
      timestamp fps i
      = Js.Math_round (inject_Z i * (inject_Z 1000000 / inject_Z fps))) /\
  (forall fps i j,
      fps = FrameRate.FPS_30 \/ fps = FrameRate.FPS_60 \/
      fps = FrameRate.FPS_120 ->
      i < j -> timestamp fps i < timestamp fps j) /\
  (forall p animationData options,
      fps options = FrameRate.FPS_30 \/ fps options = FrameRate.FPS_60 \/
      fps options = FrameRate.FPS_120 ->
      let r := convert p animationData options in
      StronglySorted Z.lt (timestamps (logOf r)) /\
      (outcomeOf r = Returned tt ->
       exists anim,
         loadAnimation p animationData = Some anim /\
         timestamps (logOf r)
         = map (timestamp (fps options))
             (Zseq 0 (Z.to_nat (totalOutputFrames anim (fps options)))))).
Proof.
  assert (Hrange : forall fps,
    fps = FrameRate.FPS_30 \/ fps = FrameRate.FPS_60 \/
    fps = FrameRate.FPS_120 -> 0 < fps <= 1000000).
  { unfold FrameRate.FPS_30, FrameRate.FPS_60, FrameRate.FPS_120. lia. }
  split; [reflexivity|]. split.
  - intros fps i j Hfps Hij. apply timestamp_lt; auto.
  - intros p animationData options Hfps r. subst r.
    destruct (convert_projection timestampOf p animationData options
                ltac:(body_projection))
      as [[Hnil Hne] | (anim & _ & _ & Hload & _ & _ & Hp & Heq)];
      fold (timestamps (logOf (convert p animationData options))) in *.
    + rewrite Hnil. split; [constructor|]. intros Ho. now elim Hne.
    + split.
      * apply (StronglySorted_prefix _ _ _ Hp).
        apply timestamps_bodyEvents_sorted. auto.
      * intros Ho. exists anim. split; [exact Hload|].
        rewrite (Heq Ho). apply timestamps_bodyEvents.
Qed.

Lemma C6_witness :
  timestamp 60 7 < timestamp 60 8 /\
  StronglySorted Z.lt
    (timestamps (logOf (convert workingPlatform oneSecondDocument
                          options_UHD_60))).
Proof.
  split.
  - apply (proj1 (proj2 C6_timestamps_strictly_increasing) 60 7 8).
    + right. left. reflexivity.
    + lia.
  - apply (proj2 (proj2 C6_timestamps_strictly_increasing) workingPlatform
             oneSecondDocument options_UHD_60).
    right. left. reflexivity.
Defined.


(** C8.  Without the VideoEncoder API the conversion fails with
    EncodingUnsupported before any rendering work: nothing at all has
    been done by then, so no render container was created, no animation
    was loaded and no frame was rasterized. *)
Theorem C8_encoding_unsupported_fails_fast (p : Platform)
    (animationData : LottieFile.t) (options : ConvertOptions) :
  VideoEncoder_defined p = false ->
  convert p animationData options
  = (Thrown EncodingUnsupported, initialDom, []) /\
  filter isRenderingWork (logOf (convert p animationData options)) = [].
Proof.
  intros Hve. rewrite convert_unfold, Hve. split; reflexivity.
Qed.

Lemma C8_witness :
  convert noWebCodecsPlatform oneSecondDocument options_FHD_30
  = (Thrown EncodingUnsupported, initialDom, []).
Proof.
  exact (proj1 (C8_encoding_unsupported_fails_fast noWebCodecsPlatform
                  oneSecondDocument options_FHD_30 eq_refl)).
Defined.

(** Every exit of the conversion other than an exception of
    [lottie.loadAnimation] leaves no render container in the document and
    no live animation instance. *)
Lemma cleanup_unless_load_throws (p : Platform)
    (animationData : LottieFile.t) (options : ConvertOptions) :
  loadAnimation p animationData <> None ->
  containerInBody (domOf (convert p animationData options)) = false /\
  animAlive (domOf (convert p animationData options)) = false.
Proof.
  intros H. rewrite convert_dom by now left. split; reflexivity.
Qed.

(** C9 does not hold of the code.  [lottie.loadAnimation] is called after
    the render container has been appended to the document and before
    the [try] block is entered: when it throws, the conversion ends with
    the container still in the document. *)
Theorem C9_container_left_when_load_throws :
  let r := convert loadThrowsPlatform brokenLayerDocument options_FHD_30 in
  outcomeOf r = Thrown AnimationLoadError /\
  containerInBody (domOf r) = true /\
  logOf r = [CreateContainer 1920 1080; AppendContainer;
             CreateCanvas 1920 1080].
Proof. repeat split; reflexivity. Qed.

(** * Further properties of the conversion *)

(** ** The loop, call by call *)

Section LoopExact.
Variables (p : Platform) (anim : AnimationItem.t) (fps total : Z).

Lemma encodeLoop_frame_ok (k : nat) (i : Z) (d : Dom) :
  frameOk p i = true ->
  encodeLoop p anim fps total (S k) i d
  = let '(o, d', l) := encodeLoop p anim fps total k (i + 1) d in
    (o, d', frameEvents anim fps total i ++ l).
Proof.
  unfold frameOk. intros H.
  apply andb_true_iff in H as [H He]. apply andb_true_iff in H as [Hs Hl].
  cbn [encodeLoop]. unfold bind, emit, require, ret, throw, frameEvents.
  rewrite Hs, Hl, He.
  destruct (progressDue total i);
    destruct (encodeLoop p anim fps total k (i + 1) d) as [[o d'] l];
    reflexivity.
Qed.

Lemma encodeLoop_frame_fails (k : nat) (i : Z) (d : Dom) :
  frameOk p i = false ->
  encodeLoop p anim fps total (S k) i d
  = (Thrown (frameError p i), d, failedFrameEvents p anim total i).
Proof.
  unfold frameOk, frameError, failedFrameEvents. intros H.
  cbn [encodeLoop]. unfold bind, emit, require, ret, throw.
  destruct (querySelector_svg p i); [|reflexivity].
  destruct (loadImage_resolves p i); [|reflexivity].
  destruct (encode_accepts p i); [discriminate|reflexivity].
Qed.

Lemma loopEvents_S (k : nat) (i : Z) :
  loopEvents anim fps total (S k) i
  = frameEvents anim fps total i ++ loopEvents anim fps total k (i + 1).
Proof. reflexivity. Qed.

Lemma firstFailure_None (n : nat) :
  forall i,
    firstFailure p n i = None <->
    (forall j, i <= j < i + Z.of_nat n -> frameOk p j = true).
Proof.
  induction n as [|n IH]; intros i; cbn [firstFailure].
  - split; [intros _ j Hj; lia|reflexivity].
  - destruct (frameOk p i) eqn:Hok.
    + rewrite IH. split; intros H j Hj.
      * destruct (Z.eq_dec j i) as [-> | Hne]; [exact Hok|]. apply H. lia.
      * apply H. lia.
    + split; [discriminate|]. intros H.
      rewrite H in Hok by lia. discriminate.
Qed.

Lemma firstFailure_Some (n : nat) :
  forall i k,
    firstFailure p n i = Some k <->
    i <= k < i + Z.of_nat n /\ frameOk p k = false /\
    (forall j, i <= j < k -> frameOk p j = true).
Proof.
  induction n as [|n IH]; intros i k; cbn [firstFailure].
  - split; [discriminate|]. intros [H _]. lia.
  - destruct (frameOk p i) eqn:Hok.
    + rewrite IH. split.
      * intros (Hk & Hf & Hall). split; [lia|]. split; [exact Hf|].
        intros j Hj. destruct (Z.eq_dec j i) as [-> | Hne]; [exact Hok|].
        apply Hall. lia.
      * intros (Hk & Hf & Hall).
        assert (k <> i) by (intros ->; congruence).
        split; [lia|]. split; [exact Hf|]. intros j Hj. apply Hall. lia.
    + split.
      * intros [= <-]. split; [lia|]. split; [exact Hok|]. intros j Hj. lia.
      * intros (Hk & Hf & Hall). f_equal.
        destruct (Z.eq_dec i k) as [E | Hne]; [exact E|].
        rewrite Hall in Hok by lia. discriminate.
Qed.

(** The loop stops at the first iteration with a failing call, or runs
    to its end. *)
Lemma encodeLoop_closed (n : nat) :
  forall (i : Z) (d : Dom),
    encodeLoop p anim fps total n i d
    = match firstFailure p n i with
      | None => (Returned tt, d, loopEvents anim fps total n i)
      | Some k =>
          (Thrown (frameError p k), d,
           loopEvents anim fps total (Z.to_nat (k - i)) i
           ++ failedFrameEvents p anim total k)
      end.
Proof.
  induction n as [|n IH]; intros i d; [reflexivity|].
  cbn [firstFailure]. destruct (frameOk p i) eqn:Hok.
  - rewrite (encodeLoop_frame_ok n i d Hok), IH.
    destruct (firstFailure p n (i + 1)) as [k|] eqn:Hff; [|reflexivity].
    apply firstFailure_Some in Hff as (Hk & _ & _).
    replace (Z.to_nat (k - i)) with (S (Z.to_nat (k - (i + 1)))) by lia.
    now rewrite loopEvents_S, app_assoc.
  - rewrite (encodeLoop_frame_fails n i d Hok).
    now rewrite Z.sub_diag.
Qed.
End LoopExact.

Lemma convertBody_closed (p : Platform) (anim : AnimationItem.t)
    (options : ConvertOptions) (w h : Z) (d : Dom) :
  convertBody p anim options w h d
  = (fst (bodyRun p anim options w h), d, snd (bodyRun p anim options w h)).
Proof.
  unfold convertBody, bodyRun, bodyHead.
  destruct (totalOutputFrames anim (fps options) <=? 0) eqn:Et;
    [reflexivity|].
  cbn [negb]. unfold bind, emit, require, ret, throw. cbn -[encodeLoop].
  destruct (configure_accepts p _); [|reflexivity]. cbn [negb].
  rewrite encodeLoop_closed.
  destruct (firstFailure p _ 0) as [k|].
  - rewrite Z.sub_0_r. reflexivity.
  - destruct (flush_resolves p); [|reflexivity].
    destruct (finalize_succeeds p); reflexivity.
Qed.

Lemma convert_closed (p : Platform) (animationData : LottieFile.t)
    (options : ConvertOptions) :
  convert p animationData options = convertRun p animationData options.
Proof.
  rewrite convert_unfold. unfold convertRun.
  destruct (VideoEncoder_defined p); [|reflexivity].
  destruct (getContext_2d p); [|reflexivity].
  destruct (loadAnimation p animationData) as [anim|]; [|reflexivity].
  cbn [negb]. rewrite convertBody_closed.
  destruct (bodyRun p anim options _ _) as [o l]. reflexivity.
Qed.

(** ** Projections of the pieces of a log *)

Lemma filter_flat_map_nil {A B} (g : B -> bool) (f : A -> list B)
    (l : list A) :
  (forall x, filter g (f x) = []) -> filter g (flat_map f l) = [].
Proof.
  intros H. induction l as [|x l IH]; cbn; [reflexivity|].
  now rewrite filter_app, H, IH.
Qed.

Lemma filterMap_flat_map {A B C} (f : B -> option C) (g : A -> list B)
    (l : list A) :
  filterMap f (flat_map g l) = flat_map (fun x => filterMap f (g x)) l.
Proof.
  induction l as [|x l IH]; cbn; [reflexivity|].
  now rewrite filterMap_app, IH.
Qed.

Lemma filterMap_flat_map_nil {A B C} (f : B -> option C) (g : A -> list B)
    (l : list A) :
  (forall x, filterMap f (g x) = []) -> filterMap f (flat_map g l) = [].
Proof.
  intros H. induction l as [|x l IH]; cbn; [reflexivity|].
  now rewrite filterMap_app, H, IH.
Qed.

Lemma flat_map_singleton {A B} (f : A -> B) (l : list A) :
  flat_map (fun x => [f x]) l = map f l.
Proof. induction l as [|x l IH]; cbn; [reflexivity|]. now rewrite IH. Qed.

Section LoopProjections.
Variables (anim : AnimationItem.t) (fps total : Z).

Lemma lifecycle_loopEvents (n : nat) (i : Z) :
  filter isLifecycle (loopEvents anim fps total n i) = [].
Proof.
  apply filter_flat_map_nil. intros x. unfold frameEvents.
  destruct (progressDue total x); reflexivity.
Qed.

Lemma finalize_loopEvents (n : nat) (i : Z) :
  filter isFinalize (loopEvents anim fps total n i) = [].
Proof.
  apply filter_flat_map_nil. intros x. unfold frameEvents.
  destruct (progressDue total x); reflexivity.
Qed.

Lemma flush_loopEvents (n : nat) (i : Z) :
  filter isFlush (loopEvents anim fps total n i) = [].
Proof.
  apply filter_flat_map_nil. intros x. unfold frameEvents.
  destruct (progressDue total x); reflexivity.
Qed.

Lemma encodes_loopEvents (n : nat) (i : Z) :
  filterMap encodeOf (loopEvents anim fps total n i)
  = map (fun j => (timestamp fps j, keyFrame fps j)) (Zseq i n).
Proof.
  unfold loopEvents. rewrite filterMap_flat_map, <- flat_map_singleton.
  apply flat_map_ext. intros x. unfold frameEvents.
  destruct (progressDue total x); reflexivity.
Qed.

Lemma muxers_loopEvents (n : nat) (i : Z) :
  filterMap muxerOf (loopEvents anim fps total n i) = [].
Proof.
  apply filterMap_flat_map_nil. intros x. unfold frameEvents.
  destruct (progressDue total x); reflexivity.
Qed.

Lemma canvases_loopEvents (n : nat) (i : Z) :
  filterMap canvasOf (loopEvents anim fps total n i) = [].
Proof.
  apply filterMap_flat_map_nil. intros x. unfold frameEvents.
  destruct (progressDue total x); reflexivity.
Qed.

Lemma configs_loopEvents (n : nat) (i : Z) :
  filterMap configOf (loopEvents anim fps total n i) = [].
Proof.
  apply filterMap_flat_map_nil. intros x. unfold frameEvents.
  destruct (progressDue total x); reflexivity.
Qed.
End LoopProjections.

Lemma frameOk_true (p : Platform) (i : Z) :
  frameOk p i = true <->
  querySelector_svg p i = true /\ loadImage_resolves p i = true /\
  encode_accepts p i = true.
Proof. unfold frameOk. rewrite !andb_true_iff. tauto. Qed.

(** ** When a conversion succeeds *)

(** X1.  A conversion returns a video exactly when the encoder API and the
    canvas context are there, the animation loads, the frame count is
    positive, the encoder accepts the selected configuration, the three
    fallible calls of every frame 0 .. totalOutputFrames - 1 succeed, and
    the flush and the finalization succeed. *)
Theorem conversion_succeeds_iff (p : Platform) (animationData : LottieFile.t)
    (options : ConvertOptions) :
  outcomeOf (convert p animationData options) = Returned tt <->
  VideoEncoder_defined p = true /\ getContext_2d p = true /\
  exists anim,
    loadAnimation p animationData = Some anim /\
    let dims := getDimensions (resolution options)
                  (LottieFile.w animationData) (LottieFile.h animationData) in
    let total := totalOutputFrames anim (fps options) in
    0 < total /\
    configure_accepts p
      (selectConfig (isConfigSupported p) (resolution options)
         (w dims) (h dims) (fps options)) = true /\
    (forall i, 0 <= i < total ->
       querySelector_svg p i = true /\ loadImage_resolves p i = true /\
       encode_accepts p i = true) /\
    flush_resolves p = true /\ finalize_succeeds p = true.
Proof.
  rewrite convert_closed. unfold convertRun, outcomeOf.
  destruct (VideoEncoder_defined p); cbn [negb].
  2:{ cbn. split; [discriminate|]. intros [H _]. discriminate. }
  destruct (getContext_2d p); cbn [negb].
  2:{ cbn. split; [discriminate|]. intros (_ & H & _). discriminate. }
  destruct (loadAnimation p animationData) as [anim|].
  2:{ cbn. split; [discriminate|]. intros (_ & _ & a & H & _). discriminate. }
  set (dims := getDimensions _ _ _).
  destruct (bodyRun p anim options (w dims) (h dims)) as [o l] eqn:Hrun.
  cbn [fst snd].
  assert (Hbody :
    o = Returned tt <->
    0 < totalOutputFrames anim (fps options) /\
    configure_accepts p
      (selectConfig (isConfigSupported p) (resolution options)
         (w dims) (h dims) (fps options)) = true /\
    (forall i, 0 <= i < totalOutputFrames anim (fps options) ->
       frameOk p i = true) /\
    flush_resolves p = true /\ finalize_succeeds p = true).
  { unfold bodyRun in Hrun.
    destruct (totalOutputFrames anim (fps options) <=? 0) eqn:Et.
    { apply Z.leb_le in Et. injection Hrun as <- _.
      split; [discriminate|]. intros [H _]. lia. }
    apply Z.leb_gt in Et.
    destruct (configure_accepts p _).
    2:{ injection Hrun as <- _. split; [discriminate|].
        intros (_ & H & _). discriminate. }
    cbn [negb] in Hrun.
    destruct (firstFailure p _ 0) as [k|] eqn:Hff.
    { injection Hrun as <- _. split; [discriminate|].
      intros (_ & _ & Hall & _).
      apply firstFailure_Some in Hff as (Hk & Hf & _).
      rewrite Hall in Hf by lia. discriminate. }
    rewrite firstFailure_None in Hff.
    destruct (flush_resolves p); cbn [negb] in Hrun.
    2:{ injection Hrun as <- _. split; [discriminate|].
        intros (_ & _ & _ & H & _). discriminate. }
    destruct (finalize_succeeds p); cbn [negb] in Hrun.
    2:{ injection Hrun as <- _. split; [discriminate|].
        intros (_ & _ & _ & _ & H). discriminate. }
    injection Hrun as <- _. split; [|reflexivity]. intros _.
    repeat split; try assumption. intros i Hi. apply Hff. lia. }
  rewrite Hbody. split.
  - intros (Ht & Hc & Hall & Hf & Hm). repeat split.
    exists anim. split; [reflexivity|]. cbv zeta. fold dims.
    repeat split; try assumption; apply frameOk_true; auto.
  - intros (_ & _ & anim' & [= <-] & Ht & Hc & Hall & Hf & Hm).
    repeat split; try assumption. intros i Hi. apply frameOk_true. auto.
Qed.

Lemma conversion_succeeds_iff_witness :
  outcomeOf (convert workingPlatform oneSecondDocument options_UHD_60)
  = Returned tt.
Proof.
  apply (proj2 (conversion_succeeds_iff workingPlatform oneSecondDocument
                  options_UHD_60)).
  split; [reflexivity|]. split; [reflexivity|].
  exists {| AnimationItem.totalFrames := 30 - 0;
            AnimationItem.frameRate := 30 |}.
  split; [reflexivity|]. cbv zeta.
  split; [reflexivity|]. split; [reflexivity|].
  split; [intros i Hi; repeat split; reflexivity|].
  split; reflexivity.
Defined.

(** ** A conversion that a frame interrupts *)

(** X2.  When the calls of frames 0 .. k-1 succeed and a call of frame k
    fails, the conversion ends with the error of that call (no SVG
    element, image not loaded, or encoder error, in this order); exactly
    the frames 0 .. k-1 have been submitted to the encoder; the encoder is
    not flushed and the muxer is not finalized; the animation is destroyed
    and the render container removed as the last two calls. *)
Theorem first_failing_frame_ends_conversion (p : Platform)
    (animationData : LottieFile.t) (options : ConvertOptions)
    (anim : AnimationItem.t) (k : Z) :
  VideoEncoder_defined p = true ->
  getContext_2d p = true ->
  loadAnimation p animationData = Some anim ->
  let dims := getDimensions (resolution options)
                (LottieFile.w animationData) (LottieFile.h animationData) in
  let total := totalOutputFrames anim (fps options) in
  configure_accepts p
    (selectConfig (isConfigSupported p) (resolution options)
       (w dims) (h dims) (fps options)) = true ->
  0 <= k < total ->
  (forall j, 0 <= j < k -> frameOk p j = true) ->
  frameOk p k = false ->
  let r := convert p animationData options in
  outcomeOf r = Thrown (frameError p k) /\
  filterMap encodeOf (logOf r)
  = map (fun i => (timestamp (fps options) i, keyFrame (fps options) i))
      (Zseq 0 (Z.to_nat k)) /\
  filter isFlush (logOf r) = [] /\
  filter isFinalize (logOf r) = [] /\
  domOf r = initialDom /\
  exists before,
    logOf r = before ++ [DestroyAnimation; RemoveContainer].
Proof.
  intros Hve Hctx Hload dims total Hcfg Hk Hall Hfail r. subst r.
  rewrite convert_closed. unfold convertRun. fold dims.
  rewrite Hve, Hctx, Hload. cbn [negb]. unfold bodyRun. fold total.
  assert (Et : (total <=? 0) = false) by (apply Z.leb_gt; lia).
  rewrite Et, Hcfg. cbn [negb].
  assert (Hff : firstFailure p (Z.to_nat total) 0 = Some k).
  { apply firstFailure_Some. split; [lia|]. now split. }
  rewrite Hff. unfold outcomeOf, logOf, domOf. cbn [fst snd].
  split; [reflexivity|].
  assert (Hfe : forall B (f : Event -> option B),
            f (GoToAndStop (lottieFrame anim total k)) = None ->
            f (Rasterize k) = None ->
            filterMap f (failedFrameEvents p anim total k) = []).
  { intros B f H1 H2. unfold failedFrameEvents. cbn. rewrite H1.
    destruct (_ && _); cbn; [now rewrite H2|reflexivity]. }
  assert (Hfg : forall g : Event -> bool,
            g (GoToAndStop (lottieFrame anim total k)) = false ->
            g (Rasterize k) = false ->
            filter g (failedFrameEvents p anim total k) = []).
  { intros g H1 H2. unfold failedFrameEvents. cbn. rewrite H1.
    destruct (_ && _); cbn; [now rewrite H2|reflexivity]. }
  split; [|split; [|split; [|split]]].
  - unfold bodyHead. cbn [app filterMap encodeOf].
    rewrite !filterMap_app, encodes_loopEvents, Hfe by reflexivity.
    cbn [app filterMap encodeOf]. now rewrite !app_nil_r.
  - unfold bodyHead. cbn [app filter isFlush].
    rewrite !filter_app, flush_loopEvents, Hfg by reflexivity.
    reflexivity.
  - unfold bodyHead. cbn [app filter isFinalize].
    rewrite !filter_app, finalize_loopEvents, Hfg by reflexivity.
    reflexivity.
  - reflexivity.
  - eexists. rewrite !app_assoc. reflexivity.
Qed.

Lemma first_failing_frame_witness :
  let r := convert (encoderFailsFrom 10) oneSecondDocument options_FHD_30 in
  outcomeOf r = Thrown EncoderRuntimeError /\
  List.length (filterMap encodeOf (logOf r)) = 10%nat /\
  domOf r = initialDom.
Proof.
  pose proof (first_failing_frame_ends_conversion (encoderFailsFrom 10)
                oneSecondDocument options_FHD_30
                {| AnimationItem.totalFrames := 30 - 0;
                   AnimationItem.frameRate := 30 |} 10
                eq_refl eq_refl eq_refl eq_refl) as H.
  cbv zeta in H.
  assert (Hk : 0 <= 10 <
               totalOutputFrames
                 {| AnimationItem.totalFrames := 30 - 0;
                    AnimationItem.frameRate := 30 |}
                 (fps options_FHD_30)).
  { vm_compute. split; [discriminate|reflexivity]. }
  assert (Hall : forall j, 0 <= j < 10 ->
                 frameOk (encoderFailsFrom 10) j = true).
  { intros j Hj. unfold frameOk, encoderFailsFrom. cbn.
    apply Z.ltb_lt. lia. }
  destruct (H Hk Hall eq_refl) as (Ho & He & _ & _ & Hd & _).
  cbv zeta. split; [exact Ho|]. split; [|exact Hd].
  rewrite He. reflexivity.
Defined.

(** ** Every conversion, case by case *)

Lemma Zseq_snoc (start : Z) (len : nat) :
  Zseq start (S len) = Zseq start len ++ [start + Z.of_nat len].
Proof.
  revert start. induction len as [|n IH]; intros start.
  - cbn. now rewrite Z.add_0_r.
  - change (Zseq start (S (S n))) with (start :: Zseq (start + 1) (S n)).
    rewrite IH. cbn [Zseq app]. do 3 f_equal. lia.
Qed.

Lemma failedFrameEvents_projections (p : Platform) (anim : AnimationItem.t)
    (total k : Z) :
  filterMap encodeOf (failedFrameEvents p anim total k) = [] /\
  filterMap seekOf (failedFrameEvents p anim total k)
  = [lottieFrame anim total k] /\
  filterMap rasterOf (failedFrameEvents p anim total k)
  = (if querySelector_svg p k && loadImage_resolves p k then [k] else []) /\
  filterMap configOf (failedFrameEvents p anim total k) = [] /\
  filterMap muxerOf (failedFrameEvents p anim total k) = [] /\
  filterMap canvasOf (failedFrameEvents p anim total k) = [] /\
  filter isLifecycle (failedFrameEvents p anim total k) = [] /\
  filter isFinalize (failedFrameEvents p anim total k) = [] /\
  filter isFlush (failedFrameEvents p anim total k) = [].
Proof.
  unfold failedFrameEvents.
  destruct (querySelector_svg p k && loadImage_resolves p k);
    repeat split; reflexivity.
Qed.

(** Rewrites the projections of an explicit log. *)
Ltac project_log :=
  unfold logOf, outcomeOf, domOf, bodyHead; cbn [fst snd];
  rewrite ?filterMap_app, ?filter_app;
  rewrite ?encodes_loopEvents, ?seeks_loopEvents, ?rasters_loopEvents,
    ?configs_loopEvents, ?muxers_loopEvents, ?canvases_loopEvents,
    ?lifecycle_loopEvents, ?finalize_loopEvents, ?flush_loopEvents;
  repeat match goal with
    | |- context [failedFrameEvents ?p ?a ?t ?k] =>
        let H := fresh "Hfailed" in
        pose proof (failedFrameEvents_projections p a t k) as H;
        destruct H as (? & ? & ? & ? & ? & ? & ? & ? & ?);
        repeat match goal with
          | E : filterMap _ (failedFrameEvents p a t k) = _ |- _ =>
              rewrite ?E; clear E
          | E : filter _ (failedFrameEvents p a t k) = _ |- _ =>
              rewrite ?E; clear E
          end
    end;
  cbn [app filterMap filter firstn encodeOf seekOf rasterOf configOf muxerOf
       canvasOf isLifecycle isFinalize isFlush];
  rewrite ?app_nil_r.

(** X3.  The muxer is finalized exactly when the conversion succeeds, and
    then once: after the flush, which comes after the last frame has been
    submitted to the encoder, and before the clean-up. *)
Theorem muxer_finalized_exactly_on_success (p : Platform)
    (animationData : LottieFile.t) (options : ConvertOptions) :
  let r := convert p animationData options in
  filter isFinalize (logOf r)
  = match outcomeOf r with Returned _ => [Finalize] | Thrown _ => [] end /\
  (outcomeOf r = Returned tt ->
   exists anim before,
     loadAnimation p animationData = Some anim /\
     logOf r
     = before ++ [Flush; Finalize; DestroyAnimation; RemoveContainer] /\
     filter isFlush before = [] /\
     List.length (filterMap encodeOf before)
     = Z.to_nat (totalOutputFrames anim (fps options))).
Proof.
  intros r. subst r. rewrite convert_closed. unfold convertRun.
  destruct (VideoEncoder_defined p); cbn [negb];
    [|split; [reflexivity|discriminate]].
  destruct (getContext_2d p); cbn [negb];
    [|split; [reflexivity|discriminate]].
  destruct (loadAnimation p animationData) as [anim|];
    [|split; [reflexivity|discriminate]].
  unfold bodyRun.
  destruct (totalOutputFrames anim (fps options) <=? 0);
    [split; [reflexivity|discriminate]|].
  destruct (configure_accepts p _); cbn [negb];
    [|split; [reflexivity|discriminate]].
  destruct (firstFailure p _ 0) as [k|].
  { split; [|discriminate]. project_log. reflexivity. }
  destruct (flush_resolves p); cbn [negb].
  2:{ split; [|discriminate]. project_log. reflexivity. }
  destruct (finalize_succeeds p); cbn [negb].
  2:{ split; [|discriminate]. project_log. reflexivity. }
  split.
  - project_log. reflexivity.
  - intros _. exists anim. eexists. split; [reflexivity|]. split.
    + unfold logOf. cbn [snd].
      change [OnProgress MsgFinalizing 98; Flush; Finalize]
        with ([OnProgress MsgFinalizing 98] ++ [Flush; Finalize]).
      rewrite !app_assoc. rewrite <- app_assoc. reflexivity.
    + split.
      * project_log. reflexivity.
      * project_log. now rewrite length_map, Zseq_length.
Qed.

Lemma muxer_finalized_witness :
  exists before,
    logOf (convert workingPlatform oneSecondDocument options_FHD_30)
    = before ++ [Flush; Finalize; DestroyAnimation; RemoveContainer] /\
    List.length (filterMap encodeOf before) = 30%nat.
Proof.
  destruct (proj2 (muxer_finalized_exactly_on_success workingPlatform
                     oneSecondDocument options_FHD_30) eq_refl)
    as (anim & before & Hload & Hlog & _ & Hlen).
  exists before. split; [exact Hlog|].
  rewrite Hlen. injection Hload as <-. reflexivity.
Defined.

(** X4.  The set-up and clean-up calls of a conversion, in order, are
    fixed by three facts about the platform: nothing without the encoder
    API; container and canvas created and the container removed again
    without a canvas context; container and canvas created and nothing
    else when loading the animation throws; otherwise container, canvas
    and animation created, and the animation destroyed and the container
    removed once each, whatever happened in between. *)
Theorem lifecycle_of_every_conversion (p : Platform)
    (animationData : LottieFile.t) (options : ConvertOptions) :
  let dims := getDimensions (resolution options)
                (LottieFile.w animationData) (LottieFile.h animationData) in
  let setup := [CreateContainer (w dims) (h dims); AppendContainer;
                CreateCanvas (w dims) (h dims)] in
  filter isLifecycle (logOf (convert p animationData options))
  = if negb (VideoEncoder_defined p) then []
    else if negb (getContext_2d p) then setup ++ [RemoveContainer]
    else match loadAnimation p animationData with
         | None => setup
         | Some _ =>
             setup ++ [LoadAnimation; DestroyAnimation; RemoveContainer]
         end.
Proof.
  intros dims setup. subst setup. rewrite convert_closed. unfold convertRun.
  fold dims.
  destruct (VideoEncoder_defined p); cbn [negb]; [|reflexivity].
  destruct (getContext_2d p); cbn [negb]; [|reflexivity].
  destruct (loadAnimation p animationData) as [anim|]; [|reflexivity].
  unfold bodyRun.
  destruct (totalOutputFrames anim (fps options) <=? 0); [reflexivity|].
  destruct (configure_accepts p _); cbn [negb]; [|reflexivity].
  destruct (firstFailure p _ 0) as [k|]; [project_log; reflexivity|].
  destruct (flush_resolves p); cbn [negb]; [|project_log; reflexivity].
  destruct (finalize_succeeds p); cbn [negb]; project_log; reflexivity.
Qed.

(** X5.  Frames go through the pipeline one at a time and in order: the
    frames rasterized in any conversion are 0, 1, 2, ... without a gap;
    at every exit the number of frames sought is the number rasterized or
    one more, and the number rasterized is the number submitted to the
    encoder or one more; on success the three numbers are equal. *)
Theorem frames_processed_one_at_a_time (p : Platform)
    (animationData : LottieFile.t) (options : ConvertOptions) :
  let r := convert p animationData options in
  let sought := filterMap seekOf (logOf r) in
  let rasterized := filterMap rasterOf (logOf r) in
  let encoded := filterMap encodeOf (logOf r) in
  rasterized = Zseq 0 (List.length rasterized) /\
  (List.length sought = List.length rasterized \/
   List.length sought = S (List.length rasterized)) /\
  (List.length rasterized = List.length encoded \/
   List.length rasterized = S (List.length encoded)) /\
  (outcomeOf r = Returned tt ->
   List.length sought = List.length rasterized /\
   List.length rasterized = List.length encoded).
Proof.
  intros r sought rasterized encoded.
  subst sought rasterized encoded r.
  rewrite convert_closed. unfold convertRun.
  destruct (VideoEncoder_defined p); cbn [negb];
    [|cbn; repeat split; auto; discriminate].
  destruct (getContext_2d p); cbn [negb];
    [|cbn; repeat split; auto; discriminate].
  destruct (loadAnimation p animationData) as [anim|];
    [|cbn; repeat split; auto; discriminate].
  unfold bodyRun.
  destruct (totalOutputFrames anim (fps options) <=? 0);
    [cbn; repeat split; auto; discriminate|].
  destruct (configure_accepts p _); cbn [negb];
    [|cbn; repeat split; auto; discriminate].
  assert (Hfull : forall n : nat,
    Zseq 0 n = Zseq 0 (List.length (Zseq 0 n))).
  { intros n. now rewrite Zseq_length. }
  destruct (firstFailure p _ 0) as [k|] eqn:Hff.
  { apply firstFailure_Some in Hff as (Hk & _ & _).
    project_log. rewrite !length_app, !length_map, !Zseq_length.
    destruct (querySelector_svg p k && loadImage_resolves p k);
      cbn [List.length]; rewrite ?length_app, ?Zseq_length;
      cbn [List.length].
    - split.
      + replace (Z.to_nat k + 1)%nat with (S (Z.to_nat k)) by lia.
        rewrite Zseq_snoc. do 2 f_equal. lia.
      + split; [left; lia|]. split; [right; lia|]. discriminate.
    - rewrite app_nil_r, Nat.add_0_r.
      split; [reflexivity|]. split; [right; lia|]. split; [left; lia|].
      discriminate. }
  destruct (flush_resolves p); cbn [negb].
  2:{ project_log. rewrite !length_map, !Zseq_length.
      split; [reflexivity|]. split; [now left|]. split; [now left|].
      discriminate. }
  destruct (finalize_succeeds p); cbn [negb];
    project_log; rewrite !length_map, !Zseq_length;
    (split; [reflexivity|]); (split; [now left|]); (split; [now left|]);
    try discriminate.
  intros _. split; reflexivity.
Qed.

Lemma frames_processed_witness :
  let r := convert workingPlatform oneSecondDocument options_UHD_60 in
  List.length (filterMap seekOf (logOf r))
  = List.length (filterMap rasterOf (logOf r)) /\
  List.length (filterMap rasterOf (logOf r))
  = List.length (filterMap encodeOf (logOf r)).
Proof.
  exact (proj2 (proj2 (proj2 (frames_processed_one_at_a_time workingPlatform
                                oneSecondDocument options_UHD_60)))
           eq_refl).
Defined.

Lemma selectConfig_fields (probe : EncoderConfig -> ProbeOutcome)
    (res : Resolution.t) (w h fps : Z) :
  let c := selectConfig probe res w h fps in
  width c = w /\ height c = h /\ framerate c = fps /\
  (bitrate c = 10000000 \/
   bitrate c = 15000000 /\ res <> Resolution.UHD \/
   bitrate c = 40000000 /\ res = Resolution.UHD).
Proof.
  unfold selectConfig.
  destruct (probe _) as [[|]|]; cbn; repeat split; auto.
  destruct (String.eqb res Resolution.UHD) eqn:E.
  - right. right. split; [reflexivity|]. now apply String.eqb_eq.
  - right. left. split; [reflexivity|]. now apply String.eqb_neq.
Qed.

(** X6.  One resolution throughout: the canvas, the muxer and the encoder
    configuration of a conversion all carry the width and height that
    [getDimensions] resolved, both even; the encoder is configured at most
    once, at the requested frame rate, and with a bit rate of 10, 15 or
    40 Mb/s, the last only for the UHD class. *)
Theorem one_resolution_throughout (p : Platform)
    (animationData : LottieFile.t) (options : ConvertOptions) :
  let dims := getDimensions (resolution options)
                (LottieFile.w animationData) (LottieFile.h animationData) in
  let log := logOf (convert p animationData options) in
  Z.even (w dims) = true /\ Z.even (h dims) = true /\
  Forall (fun size => size = (w dims, h dims)) (filterMap canvasOf log) /\
  Forall (fun size => size = (w dims, h dims)) (filterMap muxerOf log) /\
  (List.length (filterMap configOf log) <= 1)%nat /\
  Forall (fun c =>
            width c = w dims /\ height c = h dims /\
            framerate c = fps options /\
            (bitrate c = 10000000 \/
             bitrate c = 15000000 /\ resolution options <> Resolution.UHD \/
             bitrate c = 40000000 /\ resolution options = Resolution.UHD))
         (filterMap configOf log).
Proof.
  intros dims log. subst log.
  split.
  { destruct (getDimensions_cases (resolution options)
                (LottieFile.w animationData) (LottieFile.h animationData))
      as [H | [H | H]]; subst dims; rewrite H; reflexivity. }
  split.
  { destruct (getDimensions_cases (resolution options)
                (LottieFile.w animationData) (LottieFile.h animationData))
      as [H | [H | H]]; subst dims; rewrite H; reflexivity. }
  pose proof (selectConfig_fields (isConfigSupported p) (resolution options)
                (w dims) (h dims) (fps options)) as Hcfg.
  cbv zeta in Hcfg.
  rewrite convert_closed. unfold convertRun. fold dims.
  destruct (VideoEncoder_defined p); cbn [negb];
    [|cbn; repeat split; auto].
  destruct (getContext_2d p); cbn [negb];
    [|cbn; repeat split; auto].
  destruct (loadAnimation p animationData) as [anim|];
    [|cbn; repeat split; auto].
  unfold bodyRun.
  destruct (totalOutputFrames anim (fps options) <=? 0);
    [cbn; repeat split; auto|].
  destruct (configure_accepts p _); cbn [negb];
    [|cbn; repeat split; auto].
  destruct (firstFailure p _ 0) as [k|];
    [project_log; cbn [List.length]; repeat split; auto|].
  destruct (flush_resolves p); cbn [negb];
    [|project_log; cbn [List.length]; repeat split; auto].
  destruct (finalize_succeeds p); cbn [negb];
    project_log; cbn [List.length]; repeat split; auto.
Qed.

(** ** Frame count, sample times, key frames and timestamps *)

Lemma inject_Z_pos (z : Z) : 0 < z -> (0 < inject_Z z)%Q.
Proof.
  intros H. replace 0%Q with (inject_Z 0) by reflexivity.
  now rewrite <- Zlt_Qlt.
Qed.

Lemma effectiveFrameRate_positive (anim : AnimationItem.t) :
  (0 < AnimationItem.frameRate anim)%Q ->
  effectiveFrameRate anim = AnimationItem.frameRate anim.
Proof.
  intros Hpos. unfold effectiveFrameRate, Js.or_default.
  destruct (Qeq_bool (AnimationItem.frameRate anim) 0) eqn:E; [|reflexivity].
  apply Qeq_bool_iff in E. rewrite E in Hpos. discriminate.
Qed.

Lemma totalOutputFrames_bounds (anim : AnimationItem.t) (fps : Z) :
  0 < fps ->
  (durationSeconds anim
   <= inject_Z (totalOutputFrames anim fps) / inject_Z fps)%Q /\
  (inject_Z (totalOutputFrames anim fps - 1) / inject_Z fps
   < durationSeconds anim)%Q.
Proof.
  intros Hfps.
  pose proof (inject_Z_pos fps Hfps) as Hq.
  pose proof (Qle_ceiling (durationSeconds anim * inject_Z fps)) as Hup.
  pose proof (Qceiling_lt (durationSeconds anim * inject_Z fps)) as Hlo.
  split; [now apply Qle_shift_div_l|now apply Qlt_shift_div_r].
Qed.

(** X8.  With a positive frame range, frame rate and target fps, every
    output frame samples the animation strictly before its last frame
    ([lottieFrame] never reaches [totalFrames]); consecutive output frames
    are [totalFrames / totalOutputFrames] source frames apart, which is
    at most [frameRate / fps]: the video never plays the animation faster
    than its own frame rate. *)
Theorem sample_times_stay_inside (anim : AnimationItem.t) (fps i : Z) :
  0 < fps ->
  (0 < AnimationItem.totalFrames anim)%Q ->
  (0 < AnimationItem.frameRate anim)%Q ->
  let total := totalOutputFrames anim fps in
  0 <= i < total ->
  (lottieFrame anim total i < AnimationItem.totalFrames anim)%Q /\
  (lottieFrame anim total (i + 1) - lottieFrame anim total i
   == AnimationItem.totalFrames anim / inject_Z total)%Q /\
  (AnimationItem.totalFrames anim / inject_Z total
   <= AnimationItem.frameRate anim / inject_Z fps)%Q.
Proof.
  intros Hfps Htf Hfr total Hi.
  assert (Ht : 0 < total) by lia.
  pose proof (inject_Z_pos total Ht) as Htq.
  pose proof (inject_Z_pos fps Hfps) as Hfq.
  assert (Hne : ~ (inject_Z total == 0)%Q).
  { intros E. rewrite E in Htq. discriminate. }
  split; [|split].
  - unfold lottieFrame.
    rewrite <- (Qmult_1_l (AnimationItem.totalFrames anim)) at 2.
    apply Qmult_lt_compat_r; [exact Htf|].
    apply Qlt_shift_div_r; [exact Htq|].
    rewrite Qmult_1_l, <- Zlt_Qlt. lia.
  - unfold lottieFrame. rewrite inject_Z_plus. field. exact Hne.
  - pose proof (proj1 (totalOutputFrames_bounds anim fps Hfps)) as Hcov.
    fold total in Hcov. unfold durationSeconds in Hcov.
    rewrite (effectiveFrameRate_positive anim Hfr) in Hcov.
    apply Qle_shift_div_r; [exact Htq|].
    assert (Hfr' : ~ (AnimationItem.frameRate anim == 0)%Q).
    { intros E. rewrite E in Hfr. discriminate. }
    assert (Hfq' : ~ (inject_Z fps == 0)%Q).
    { intros E. rewrite E in Hfq. discriminate. }
    apply (Qmult_le_compat_r _ _ (AnimationItem.frameRate anim)) in Hcov;
      [|now apply Qlt_le_weak].
    setoid_replace (AnimationItem.totalFrames anim
                    / AnimationItem.frameRate anim
                    * AnimationItem.frameRate anim)%Q
      with (AnimationItem.totalFrames anim) in Hcov by (field; exact Hfr').
    eapply Qle_trans; [exact Hcov|].
    apply Qle_lteq. right. field. exact Hfq'.
Qed.

Lemma sample_times_witness :
  (lottieFrame {| AnimationItem.totalFrames := 30;
                  AnimationItem.frameRate := 30 |} 60 59 < 30)%Q.
Proof.
  refine (proj1 (sample_times_stay_inside
                   {| AnimationItem.totalFrames := 30;
                      AnimationItem.frameRate := 30 |} 60 59 _ _ _ _)).
  - lia.
  - reflexivity.
  - reflexivity.
  - vm_compute. split; [discriminate|reflexivity].
Defined.

(** X9.  Key frames come every two seconds of output: for a positive
    fps, frame 0 is a key frame, the next key frame after a key frame at
    index j is at index j + 2*fps, and any 2*fps consecutive frame indices
    contain exactly one key frame. *)
Theorem one_keyframe_every_two_seconds (fps : Z) :
  0 < fps ->
  keyFrame fps 0 = true /\
  (forall j, keyFrame fps (j + fps * 2) = keyFrame fps j) /\
  (forall i,
      exists j,
        i <= j < i + fps * 2 /\ keyFrame fps j = true /\
        forall j',
          i <= j' < i + fps * 2 -> keyFrame fps j' = true -> j' = j).
Proof.
  intros Hfps.
  assert (Hm : 0 < fps * 2) by lia.
  assert (Hkey : forall j, keyFrame fps j = true <-> j mod (fps * 2) = 0).
  { intros j. rewrite keyFrame_mod by lia. apply Z.eqb_eq. }
  split; [|split].
  - apply Hkey. apply Z.mod_0_l. lia.
  - intros j. rewrite !keyFrame_mod by lia.
    replace (j + fps * 2) with (j + 1 * (fps * 2)) by lia.
    now rewrite Z.mod_add by lia.
  - intros i.
    exists (i + (- i) mod (fps * 2)).
    pose proof (Z.mod_pos_bound (- i) (fps * 2) Hm) as Hb.
    split; [lia|]. split.
    + apply Hkey. rewrite Zplus_mod_idemp_r.
      replace (i + - i) with 0 by lia. apply Z.mod_0_l. lia.
    + intros j' Hj' Hk'. apply Hkey in Hk'.
      apply Z.mod_divide in Hk' as [a Ha]; [|lia].
      assert (Hd : (fps * 2 | i + (- i) mod (fps * 2))).
      { apply Z.mod_divide; [lia|]. rewrite Zplus_mod_idemp_r.
        replace (i + - i) with 0 by lia. apply Z.mod_0_l. lia. }
      destruct Hd as [b Hbq].
      set (m := fps * 2) in *.
      set (j0 := i + (- i) mod m) in *.
      assert (Hlt : (a - b) * m < m) by lia.
      assert (Hgt : - m < (a - b) * m) by lia.
      assert (a - b < 1) by nia.
      assert (-1 < a - b) by nia.
      assert (a = b) by lia. subst a. lia.
Qed.

Lemma one_keyframe_witness :
  keyFrame 60 0 = true /\
  exists j, 7 <= j < 7 + 60 * 2 /\ keyFrame 60 j = true.
Proof.
  destruct (one_keyframe_every_two_seconds 60 ltac:(lia)) as (H0 & _ & Hw).
  split; [exact H0|].
  destruct (Hw 7) as (j & Hj & Hk & _).
  exists j. split; [exact Hj|exact Hk].
Defined.

Lemma encodes_bodyEvents (p : Platform) (anim : AnimationItem.t)
    (options : ConvertOptions) (w h : Z) :
  filterMap encodeOf (bodyEvents p anim options w h)
  = map (fun i => (timestamp (fps options) i, keyFrame (fps options) i))
      (Zseq 0 (Z.to_nat (totalOutputFrames anim (fps options)))).
Proof.
  unfold bodyEvents. cbn [app filterMap encodeOf]. rewrite filterMap_app.
  rewrite encodes_loopEvents. cbn [filterMap encodeOf]. apply app_nil_r.
Qed.

(** X10.  Whatever the platform and the options, the first frame that a
    conversion submits to the encoder is a key frame with timestamp 0. *)
Theorem first_frame_is_keyframe_at_zero (p : Platform)
    (animationData : LottieFile.t) (options : ConvertOptions)
    (first : Z * bool) (others : list (Z * bool)) :
  filterMap encodeOf (logOf (convert p animationData options))
  = first :: others ->
  first = (0, true).
Proof.
  intros Hlog.
  destruct (convert_projection encodeOf p animationData options
              ltac:(body_projection))
    as [[Hnil _] | (anim & _ & _ & _ & Hpos & _ & Hp & _)].
  - rewrite Hnil in Hlog. discriminate.
  - rewrite Hlog, encodes_bodyEvents in Hp. destruct Hp as [rest Hrest].
    destruct (Z.to_nat (totalOutputFrames anim (fps options))) as [|n];
      [discriminate|].
    cbn [Zseq map app] in Hrest. injection Hrest as Hfirst _.
    rewrite <- Hfirst. f_equal.
    + unfold timestamp, Js.Math_round.
      assert (H0 : (inject_Z 0 * frameIntervalMicroseconds (fps options)
                    + (1 # 2) == 1 # 2)%Q) by ring.
      now rewrite H0.
    + pose proof (positive_frames_fps_nonzero anim (fps options) Hpos).
      rewrite keyFrame_mod by assumption. now rewrite Z.mod_0_l by lia.
Qed.

Lemma first_frame_witness :
  hd_error (filterMap encodeOf
              (logOf (convert workingPlatform oneSecondDocument
                        options_UHD_60)))
  = Some (0, true).
Proof.
  destruct (filterMap encodeOf
              (logOf (convert workingPlatform oneSecondDocument
                        options_UHD_60)))
    as [|first others] eqn:E.
  - vm_compute in E. discriminate.
  - cbn. f_equal.
    exact (first_frame_is_keyframe_at_zero workingPlatform oneSecondDocument
             options_UHD_60 first others E).
Defined.

Lemma Math_round_half_up (n d : Z) :
  0 < d -> Js.Math_round (inject_Z n / inject_Z d) = (2 * n + d) / (2 * d).
Proof.
  intros Hd. unfold Js.Math_round. rewrite Zdiv_Qdiv.
  assert (Hne : ~ (inject_Z d == 0)%Q).
  { intros E. pose proof (inject_Z_pos d Hd) as H. rewrite E in H.
    discriminate. }
  assert (Heq : (inject_Z n / inject_Z d + (1 # 2)
                 == inject_Z (2 * n + d) / inject_Z (2 * d))%Q).
  { rewrite inject_Z_plus, !inject_Z_mult.
    field; repeat split; solve [exact Hne | discriminate]. }
  now rewrite Heq.
Qed.

Lemma timestamp_closed_form (fps i : Z) :
  0 < fps -> timestamp fps i = (2 * (1000000 * i) + fps) / (2 * fps).
Proof.
  intros Hfps. rewrite <- Math_round_half_up by exact Hfps.
  unfold timestamp, frameIntervalMicroseconds, Js.Math_round.
  assert (Hne : ~ (inject_Z fps == 0)%Q).
  { intros E. pose proof (inject_Z_pos fps Hfps) as H. rewrite E in H.
    discriminate. }
  assert (Heq : (inject_Z i * (inject_Z 1000000 / inject_Z fps) + (1 # 2)
                 == inject_Z (1000000 * i) / inject_Z fps + (1 # 2))%Q).
  { rewrite inject_Z_mult. field. exact Hne. }
  now rewrite Heq.
Qed.

(** X11.  Timestamps are paced at a fixed interval without drift: for a
    positive fps, the timestamp of frame i is within half a microsecond of
    i * 1,000,000 / fps, frames at whole seconds (i = k * fps) are at
    exactly k * 1,000,000 microseconds, and two consecutive frames are
    floor(1,000,000 / fps) or one more microseconds apart. *)
Theorem timestamps_do_not_drift (fps : Z) :
  0 < fps ->
  (forall i,
      2 * (1000000 * i) - fps < 2 * fps * timestamp fps i
      <= 2 * (1000000 * i) + fps) /\
  (forall k, timestamp fps (k * fps) = k * 1000000) /\
  (forall i,
      1000000 / fps <= timestamp fps (i + 1) - timestamp fps i
      <= 1000000 / fps + 1).
Proof.
  intros Hfps.
  assert (Hbound : forall i,
    2 * (1000000 * i) - fps < 2 * fps * timestamp fps i
    <= 2 * (1000000 * i) + fps).
  { intros i. rewrite timestamp_closed_form by exact Hfps.
    pose proof (Z.div_mod (2 * (1000000 * i) + fps) (2 * fps) ltac:(lia)).
    pose proof (Z.mod_pos_bound (2 * (1000000 * i) + fps) (2 * fps)
                  ltac:(lia)).
    lia. }
  split; [exact Hbound|]. split.
  - intros k. rewrite timestamp_closed_form by exact Hfps.
    replace (2 * (1000000 * (k * fps)) + fps)
      with (fps + (k * 1000000) * (2 * fps)) by ring.
    rewrite Z.div_add by lia. rewrite Z.div_small by lia. lia.
  - intros i.
    pose proof (Hbound i) as Hi. pose proof (Hbound (i + 1)) as Hi1.
    pose proof (Z.div_mod 1000000 fps ltac:(lia)) as Hdm.
    pose proof (Z.mod_pos_bound 1000000 fps Hfps) as Hmb.
    split; nia.
Qed.

Lemma timestamps_witness :
  timestamp 30 (7 * 30) = 7 * 1000000 /\
  1000000 / 30 <= timestamp 30 (4 + 1) - timestamp 30 4 <= 1000000 / 30 + 1.
Proof.
  destruct (timestamps_do_not_drift 30 ltac:(lia)) as (_ & Hsec & Hgap).
  split; [exact (Hsec 7)|exact (Hgap 4)].
Defined.

(** ** The frame counter of the progress messages *)

Lemma frameReports_loopEvents (anim : AnimationItem.t) (fps total : Z)
    (n : nat) (i : Z) :
  filterMap frameReportOf (loopEvents anim fps total n i)
  = map (fun j => (j + 1, total)) (filter (progressDue total) (Zseq i n)).
Proof.
  unfold loopEvents. revert i.
  induction n as [|k IH]; intros i; cbn [Zseq flat_map filter map];
    [reflexivity|].
  rewrite filterMap_app, IH. unfold frameEvents.
  destruct (progressDue total i); reflexivity.
Qed.

Lemma frameReports_bodyEvents (p : Platform) (anim : AnimationItem.t)
    (options : ConvertOptions) (w h : Z) :
  filterMap frameReportOf (bodyEvents p anim options w h)
  = map (fun j => (j + 1, totalOutputFrames anim (fps options)))
      (filter (progressDue (totalOutputFrames anim (fps options)))
         (Zseq 0 (Z.to_nat (totalOutputFrames anim (fps options))))).
Proof.
  unfold bodyEvents. cbn [app filterMap frameReportOf].
  rewrite filterMap_app, frameReports_loopEvents.
  cbn [filterMap frameReportOf]. apply app_nil_r.
Qed.

(** X12.  The messages "Processing frame current/total" of a conversion
    carry the frame count as total and a current frame number between 1
    and total that strictly increases from one message to the next; a
    conversion that succeeds starts them at 1/total and ends them at
    total/total. *)
Theorem frame_reports_count_up (p : Platform) (animationData : LottieFile.t)
    (options : ConvertOptions) (anim : AnimationItem.t) :
  loadAnimation p animationData = Some anim ->
  let total := totalOutputFrames anim (fps options) in
  let r := convert p animationData options in
  let reports := filterMap frameReportOf (logOf r) in
  Forall (fun report => snd report = total /\ 1 <= fst report <= total)
    reports /\
  StronglySorted (fun a b => fst a < fst b) reports /\
  (outcomeOf r = Returned tt ->
   hd_error reports = Some (1, total) /\
   last reports (0, 0) = (total, total)).
Proof.
  intros Hload total r reports. subst reports r.
  destruct (convert_projection frameReportOf p animationData options
              ltac:(body_projection))
    as [[-> Hne] | (anim' & _ & _ & Hload' & Hpos & _ & Hp & Heq)].
  { split; [constructor|]. split; [constructor|]. intros Ho. now elim Hne. }
  rewrite Hload in Hload'. injection Hload' as <-.
  rewrite frameReports_bodyEvents in Hp, Heq. fold total in Hp, Heq, Hpos.
  split; [|split].
  - apply (prefix_Forall _ _ _ Hp). apply Forall_forall.
    intros [current outOf] Hin.
    apply in_map_iff in Hin as (j & [= <- <-] & Hj).
    apply filter_In in Hj as [Hj _]. apply Zseq_In in Hj. cbn. lia.
  - apply (StronglySorted_prefix _ _ _ Hp).
    apply StronglySorted_map_on with (RA := Z.lt) (P := fun _ => True).
    + intros x y _ _ Hxy. cbn. lia.
    + apply Forall_forall. trivial.
    + apply StronglySorted_filter, Zseq_sorted.
  - intros Ho. rewrite (Heq Ho).
    destruct (Z.to_nat total) as [|n] eqn:En; [lia|].
    split.
    + cbn [Zseq filter].
      assert (H0 : progressDue total 0 = true) by reflexivity.
      rewrite H0. reflexivity.
    + rewrite Zseq_snoc, filter_app. cbn [filter].
      assert (Hlast : progressDue total (0 + Z.of_nat n) = true).
      { unfold progressDue. apply orb_true_iff. right. apply Z.eqb_eq. lia. }
      rewrite Hlast, map_app. cbn [map]. rewrite last_last.
      f_equal. lia.
Qed.

Lemma frame_reports_witness :
  let reports :=
    filterMap frameReportOf
      (logOf (convert workingPlatform oneSecondDocument options_FHD_30)) in
  hd_error reports = Some (1, 30) /\ last reports (0, 0) = (30, 30).
Proof.
  exact (proj2 (proj2 (frame_reports_count_up workingPlatform
                         oneSecondDocument options_FHD_30
                         {| AnimationItem.totalFrames := 30 - 0;
                            AnimationItem.frameRate := 30 |} eq_refl))
           eq_refl).
Defined.

(** ** App.tsx: what the user sees of a conversion *)

Lemma map_progress_onProgress (log : list Event) :
  map App.progress (filterMap App.onProgress log) = percents log.
Proof.
  unfold percents. induction log as [|ev log IH]; [reflexivity|].
  destruct ev; cbn; try exact IH. now rewrite IH.
Qed.

Lemma states_onProgress (log : list Event) :
  Forall (fun s => App.state s = App.rendering)
    (filterMap App.onProgress log).
Proof.
  induction log as [|ev log IH]; [constructor|].
  destruct ev; cbn; try exact IH. now constructor.
Qed.

Lemma percents_range_sorted (p : Platform) (animationData : LottieFile.t)
    (options : ConvertOptions) :
  let r := convert p animationData options in
  Forall (fun percent => 5 <= percent <= 98) (percents (logOf r)) /\
  StronglySorted Z.le (percents (logOf r)).
Proof.
  intros r. subst r.
  destruct (convert_projection percentOf p animationData options
              ltac:(body_projection))
    as [[Hnil _] | (anim & _ & _ & _ & _ & _ & Hp & _)];
    fold (percents (logOf (convert p animationData options))) in *.
  - rewrite Hnil. split; constructor.
  - split.
    + apply (prefix_Forall _ _ _ Hp), percents_bodyEvents_range.
    + apply (StronglySorted_prefix _ _ _ Hp), percents_bodyEvents_sorted.
Qed.

(** X13.  The statuses that [handleConvert] sets for a loaded document:
    it first sets 'rendering' at 0; every status but the last is
    'rendering'; the last is 'completed' with progress 100 and the output
    URL when the conversion succeeded, and 'error' with progress 0 and an
    error text when it failed; on success the progress values never go
    down on their way from 0 to 100.  Without a document no status is
    set. *)
Theorem handleConvert_statuses (p : Platform) (external : Error -> JsThrown)
    (url : string) (animationData : LottieFile.t) (options : ConvertOptions) :
  let r := convert p animationData options in
  let statuses :=
    App.handleConvert p external url (Some animationData) options in
  App.handleConvert p external url None options = [] /\
  (exists between final,
      statuses
      = {| App.state := App.rendering; App.progress := 0;
           App.message := Some App.InitializingRenderer;
           App.outputUrl := None; App.errorText := None |}
        :: between ++ [final] /\
      Forall (fun s => App.state s = App.rendering /\
                       5 <= App.progress s <= 98) between /\
      (outcomeOf r = Returned tt ->
       final = {| App.state := App.completed; App.progress := 100;
                  App.message := Some App.ConversionComplete;
                  App.outputUrl := Some url; App.errorText := None |}) /\
      (forall e, outcomeOf r = Thrown e ->
       App.state final = App.error /\ App.progress final = 0 /\
       App.outputUrl final = None /\
       App.errorText final = Some (App.errMsg (thrownBy external e)))) /\
  (outcomeOf r = Returned tt ->
   StronglySorted Z.le (map App.progress statuses)).
Proof.
  intros r statuses. subst statuses. unfold App.handleConvert. fold r.
  split; [reflexivity|].
  destruct (percents_range_sorted p animationData options) as [Hrange Hsorted].
  fold r in Hrange, Hsorted.
  split.
  - eexists _, _. split; [reflexivity|]. split; [|split].
    + pose proof (states_onProgress (logOf r)) as Hst.
      rewrite <- map_progress_onProgress in Hrange.
      rewrite Forall_map in Hrange.
      rewrite Forall_forall in Hst, Hrange |- *.
      intros s Hs. split; [now apply Hst|now apply Hrange].
    + intros ->. reflexivity.
    + intros e ->. repeat split; reflexivity.
  - intros Ho. rewrite Ho. cbn [app map App.progress].
    rewrite map_app, map_progress_onProgress. cbn [map App.progress].
    constructor.
    + apply StronglySorted_app; [exact Hsorted|repeat constructor|].
      intros x y Hx [<- | []]. rewrite Forall_forall in Hrange.
      specialize (Hrange x Hx). lia.
    + apply Forall_app. split.
      * rewrite Forall_forall in Hrange |- *. intros x Hx.
        specialize (Hrange x Hx). lia.
      * repeat constructor. lia.
Qed.

Lemma handleConvert_statuses_witness :
  map App.progress
    (App.handleConvert workingPlatform (fun _ => ThrownObject None)
       "blob:video" (Some oneSecondDocument) options_FHD_30)
  = [0; 5; 10; 10; 24; 38; 53; 67; 81; 92; 98; 100] /\
  StronglySorted Z.le
    (map App.progress
       (App.handleConvert workingPlatform (fun _ => ThrownObject None)
          "blob:video" (Some oneSecondDocument) options_FHD_30)).
Proof.
  split; [reflexivity|].
  exact (proj2 (proj2 (handleConvert_statuses workingPlatform
                         (fun _ => ThrownObject None) "blob:video"
                         oneSecondDocument options_FHD_30))
           eq_refl).
Defined.

(** X14.  When a conversion fails with one of the errors that the
    converter raises itself (no WebCodecs API, no canvas context, invalid
    duration, no SVG element), the error text of the final status is the
    converter's message word for word: none of these messages contains
    "VideoEncoder", so the encoder hint of [handleConvert] is not shown
    for them, not even when the WebCodecs API is missing. *)
Theorem own_errors_shown_verbatim (p : Platform)
    (external : Error -> JsThrown) (url : string)
    (animationData : LottieFile.t) (options : ConvertOptions)
    (e : Error) (m : string) :
  outcomeOf (convert p animationData options) = Thrown e ->
  converterMessage e = Some m ->
  let statuses :=
    App.handleConvert p external url (Some animationData) options in
  includes "VideoEncoder" m = false /\
  App.errorText
    (last statuses
       {| App.state := App.idle; App.progress := 0; App.message := None;
          App.outputUrl := None; App.errorText := None |})
  = Some m /\
  m <> App.encodingHint.
Proof.
  intros Ho Hm statuses. subst statuses. unfold App.handleConvert.
  rewrite Ho. rewrite app_assoc, last_last. cbn [App.errorText].
  unfold thrownBy. rewrite Hm.
  destruct e; try discriminate; injection Hm as <-;
    (split; [reflexivity|]); (split; [reflexivity|]); discriminate.
Qed.

Lemma own_errors_witness :
  App.errorText
    (last (App.handleConvert noWebCodecsPlatform (fun _ => ThrownObject None)
             "blob:video" (Some oneSecondDocument) options_FHD_30)
       {| App.state := App.idle; App.progress := 0; App.message := None;
          App.outputUrl := None; App.errorText := None |})
  = Some "Your browser does not support the WebCodecs API. Please use the latest Chrome or Edge."%string.
Proof.
  exact (proj1 (proj2 (own_errors_shown_verbatim noWebCodecsPlatform
                         (fun _ => ThrownObject None) "blob:video"
                         oneSecondDocument options_FHD_30
                         EncodingUnsupported _ eq_refl eq_refl))).
Defined.

(** ** ControlPanel.tsx: options within reach *)

Lemma onClick_supported (options : ConvertOptions) (c : ControlPanel.Click) :
  supportedOptions options -> supportedOptions (ControlPanel.onClick options c).
Proof.
  intros [Hr Hf]. destruct c as [n | n]; cbn [ControlPanel.onClick].
  - destruct (nth_error ControlPanel.resolutionButtons n) as [res|] eqn:E;
      [|now split].
    split; [|exact Hf]. cbn. now apply nth_error_In in E.
  - destruct (nth_error ControlPanel.fpsButtons n) as [f|] eqn:E;
      [|now split].
    split; [exact Hr|]. cbn. now apply nth_error_In in E.
Qed.

Lemma fold_onClick_supported (clicks : list ControlPanel.Click) :
  forall options,
    supportedOptions options ->
    supportedOptions (fold_left ControlPanel.onClick clicks options).
Proof.
  induction clicks as [|c clicks IH]; intros options H; [exact H|].
  cbn [fold_left]. apply IH. now apply onClick_supported.
Qed.

(** X15.  Whatever buttons of the control panel are clicked, in whatever
    order, the options stay within the three resolutions and the three
    frame rates of the enums; every conversion started with such options
    therefore resolves to one of the three table sizes and submits
    strictly increasing timestamps to the encoder. *)
Theorem reachable_options_are_supported (clicks : list ControlPanel.Click) :
  let options := ControlPanel.optionsAfter clicks in
  (resolution options = Resolution.HD \/ resolution options = Resolution.FHD \/
   resolution options = Resolution.UHD) /\
  (fps options = 30 \/ fps options = 60 \/ fps options = 120) /\
  (forall ow oh,
      getDimensions (resolution options) ow oh
      = if String.eqb (resolution options) Resolution.HD
        then {| w := 1280; h := 720 |}
        else if String.eqb (resolution options) Resolution.FHD
        then {| w := 1920; h := 1080 |}
        else {| w := 3840; h := 2160 |}) /\
  (forall p animationData,
      StronglySorted Z.lt
        (timestamps (logOf (convert p animationData options)))).
Proof.
  intros options.
  assert (Hs : supportedOptions options).
  { apply fold_onClick_supported. split; cbn; auto. }
  destruct Hs as [Hr Hf].
  assert (Hr' : resolution options = Resolution.HD \/
                resolution options = Resolution.FHD \/
                resolution options = Resolution.UHD).
  { cbn in Hr. intuition auto. }
  assert (Hf' : fps options = 30 \/ fps options = 60 \/ fps options = 120).
  { cbn in Hf. unfold FrameRate.FPS_30, FrameRate.FPS_60, FrameRate.FPS_120
      in Hf. intuition auto. }
  split; [exact Hr'|]. split; [exact Hf'|]. split.
  - intros ow oh. destruct Hr' as [-> | [-> | ->]]; reflexivity.
  - intros p animationData.
    destruct (convert_projection timestampOf p animationData options
                ltac:(body_projection))
      as [[Hnil _] | (anim & _ & _ & _ & _ & _ & Hp & _)];
      fold (timestamps (logOf (convert p animationData options))) in *.
    + rewrite Hnil. constructor.
    + apply (StronglySorted_prefix _ _ _ Hp).
      apply timestamps_bodyEvents_sorted. lia.
Qed.

(** ** File names *)

Lemma replaceFirst_absent (pattern replacement s : string) :
  includes pattern s = false -> replaceFirst pattern replacement s = s.
Proof.
  induction s as [|c rest IH]; cbn [includes replaceFirst]; intros H.
  - destruct (String.prefix pattern EmptyString); [discriminate|reflexivity].
  - destruct (String.prefix pattern (String c rest)); [discriminate|].
    now rewrite IH.
Qed.

Lemma append_empty_r (s : string) : (s ++ "")%string = s.
Proof. induction s as [|c s IH]; cbn; [reflexivity|]. now rewrite IH. Qed.

Lemma replaceFirst_cons (pattern replacement : string) (c : Ascii.ascii)
    (rest : string) :
  String.prefix pattern (String c rest) = false ->
  replaceFirst pattern replacement (String c rest)
  = String c (replaceFirst pattern replacement rest).
Proof. intros H. cbn [replaceFirst]. now rewrite H. Qed.

Lemma prefix_json_other (c : Ascii.ascii) (s : string) :
  Ascii.eqb dot c = false -> String.prefix ".json" (String c s) = false.
Proof.
  intros Hc. cbn [String.prefix]. fold dot.
  destruct (Ascii.ascii_dec dot c) as [E | E]; [|reflexivity].
  subst c. now rewrite Ascii.eqb_refl in Hc.
Qed.

Lemma fileNameOf_dotless (base rest : string) :
  hasChar dot base = false ->
  fileNameOf (base ++ ".json" ++ rest) = (base ++ rest)%string.
Proof.
  unfold fileNameOf. induction base as [|c base IH]; intros H.
  - cbn. destruct rest; reflexivity.
  - cbn [hasChar] in H. apply orb_false_iff in H as [Hc Hb].
    change ((String c base ++ ".json" ++ rest)%string)
      with (String c (base ++ ".json" ++ rest)%string).
    rewrite replaceFirst_cons by now apply prefix_json_other.
    change ((String c base ++ rest)%string)
      with (String c (base ++ rest)%string).
    f_equal. now apply IH.
Qed.

Lemma endsWith_app (base suffix : string) :
  endsWith (base ++ suffix) suffix = true.
Proof.
  induction base as [|c base IH]; cbn [append endsWith].
  - destruct suffix; cbn [endsWith]; now rewrite String.eqb_refl.
  - destruct (String.eqb (String c (base ++ suffix)) suffix);
      [reflexivity|exact IH].
Qed.

(** X16.  A file whose name ends in ".json" is accepted whatever its MIME
    type and, when its text parses, is handed on with its full name; the
    name that the app keeps for it is the name without the first
    occurrence of ".json": a name without ".json" is kept whole, and from
    base.json with a base free of dots the base is kept, also when more
    text follows the extension. *)
Theorem json_file_accepted_and_named (JSON_parse : string -> option JsAny)
    (mime base text : string) (json : JsAny) :
  hasChar dot base = false ->
  JSON_parse text = Some json ->
  let file := {| Dropzone.type := mime;
                 Dropzone.name := (base ++ ".json")%string;
                 Dropzone.text := text |} in
  Dropzone.processFile JSON_parse file
  = Dropzone.Loaded json (base ++ ".json")%string /\
  fileNameOf (base ++ ".json") = base /\
  (forall rest, fileNameOf (base ++ ".json" ++ rest) = (base ++ rest)%string) /\
  (forall other, includes ".json" other = false -> fileNameOf other = other).
Proof.
  intros Hbase Hparse file. subst file.
  split; [|split; [|split]].
  - unfold Dropzone.processFile. cbn [Dropzone.type Dropzone.name Dropzone.text].
    rewrite endsWith_app, Hparse. cbn [negb]. now rewrite andb_false_r.
  - pose proof (fileNameOf_dotless base "" Hbase) as H.
    cbn [append] in H. now rewrite append_empty_r in H.
  - intros rest. now apply fileNameOf_dotless.
  - intros other H. now apply replaceFirst_absent.
Qed.

Lemma json_file_witness :
  fileNameOf "loader.json" = "loader"%string /\
  fileNameOf "loader.json.backup.json" = "loader.backup.json"%string.
Proof.
  destruct (json_file_accepted_and_named
              (fun _ => Some (JsOpaque "{}")) "" "loader" "{}"
              (JsOpaque "{}") eq_refl eq_refl)
    as (_ & Hname & Hrest & _).
  split; [exact Hname|exact (Hrest ".backup.json"%string)].
Defined.

(** ** The inputs that are rejected for their duration *)

(** X19.  The frame count is zero or negative exactly when
    durationSeconds * fps is: so a conversion that has its encoder API,
    canvas context and animation fails with InvalidDuration exactly on
    such inputs, among them an empty frame range, a target fps of zero,
    and a frame range or frame rate or fps whose signs make the product
    negative. *)
Theorem invalid_duration_inputs (p : Platform) (animationData : LottieFile.t)
    (options : ConvertOptions) (anim : AnimationItem.t) :
  VideoEncoder_defined p = true ->
  getContext_2d p = true ->
  loadAnimation p animationData = Some anim ->
  (outcomeOf (convert p animationData options) = Thrown InvalidDuration <->
   (durationSeconds anim * inject_Z (fps options) <= 0)%Q) /\
  (fps options = 0 ->
   outcomeOf (convert p animationData options) = Thrown InvalidDuration) /\
  ((0 < durationSeconds anim)%Q -> 0 < fps options ->
   outcomeOf (convert p animationData options) <> Thrown InvalidDuration).
Proof.
  intros Hve Hctx Hload.
  destruct (convert_InvalidDuration p animationData options anim
              Hve Hctx Hload) as [Hle Hpos].
  assert (Hceil : totalOutputFrames anim (fps options) <= 0 <->
                  (durationSeconds anim * inject_Z (fps options) <= 0)%Q).
  { unfold totalOutputFrames, Js.Math_ceil. split.
    - intros H. eapply Qle_trans; [apply Qle_ceiling|].
      replace 0%Q with (inject_Z 0) by reflexivity. now rewrite <- Zle_Qle.
    - intros H. apply Qceiling_resp_le in H. exact H. }
  assert (Hiff : outcomeOf (convert p animationData options)
                 = Thrown InvalidDuration <->
                 (durationSeconds anim * inject_Z (fps options) <= 0)%Q).
  { rewrite <- Hceil. split.
    - intros Ho.
      destruct (Z.le_gt_cases (totalOutputFrames anim (fps options)) 0)
        as [H | H]; [exact H|].
      now elim (Hpos H).
    - intros H. now rewrite (Hle H). }
  split; [exact Hiff|]. split.
  - intros H0. apply Hiff. rewrite H0.
    setoid_replace (durationSeconds anim * inject_Z 0)%Q with 0%Q by ring.
    apply Qle_refl.
  - intros Hd Hf Ho. apply Hiff in Ho.
    apply (Qlt_irrefl 0). eapply Qlt_le_trans; [|exact Ho].
    setoid_replace 0%Q with (0 * inject_Z (fps options))%Q at 1 by ring.
    apply Qmult_lt_compat_r; [now apply inject_Z_pos|exact Hd].
Qed.

Lemma invalid_duration_witness :
  outcomeOf (convert workingPlatform oneSecondDocument
               {| resolution := Resolution.HD; fps := 0 |})
  = Thrown InvalidDuration.
Proof.
  exact (proj1 (proj2 (invalid_duration_inputs workingPlatform
                         oneSecondDocument
                         {| resolution := Resolution.HD; fps := 0 |}
                         {| AnimationItem.totalFrames := 30 - 0;
                            AnimationItem.frameRate := 30 |}
                         eq_refl eq_refl eq_refl))
           eq_refl).
Defined.

(** ** The frame count in binary64 *)

(** [convertBody] is the guarded block on the count of exact
    arithmetic. *)
Lemma convertBody_on_exact_count (p : Platform) (anim : AnimationItem.t)
    (options : ConvertOptions) (w h : Z) :
  convertBody p anim options w h
  = convertBodyOn (totalOutputFrames anim (fps options)) p anim options w h.
Proof. reflexivity. Qed.

Lemma convert_on_exact_count (p : Platform) (animationData : LottieFile.t)
    (options : ConvertOptions) (anim : AnimationItem.t) :
  loadAnimation p animationData = Some anim ->
  convert p animationData options
  = convertOn (totalOutputFrames anim (fps options)) p animationData options.
Proof.
  intros Hload.
  unfold convert, convertOn, renderAndConvert, renderAndConvertOn.
  destruct (VideoEncoder_defined p); [|reflexivity].
  destruct (getContext_2d p); [|reflexivity].
  unfold lottie_loadAnimation. rewrite Hload. reflexivity.
Qed.

(** The guarded block on a given count: it rejects a count that is not
    positive before anything else, and otherwise, when it returns, it has
    rasterized the frames [0 .. total - 1] in order. *)
Lemma convertBodyOn_cases (total : Z) (p : Platform) (anim : AnimationItem.t)
    (options : ConvertOptions) (w h : Z) (d : Dom) :
  exists o l,
    convertBodyOn total p anim options w h d = (o, d, l) /\
    (total <= 0 -> o = Thrown InvalidDuration /\ l = []) /\
    (0 < total ->
     o <> Thrown InvalidDuration /\
     (o = Returned tt ->
      filterMap rasterOf l = Zseq 0 (Z.to_nat total))).
Proof.
  unfold convertBodyOn.
  destruct (total <=? 0) eqn:Et.
  { apply Z.leb_le in Et. exists (Thrown InvalidDuration), [].
    split; [reflexivity|]. split; [now split|]. lia. }
  apply Z.leb_gt in Et.
  cbn [negb]. unfold bind, emit, require, ret, throw. cbn -[encodeLoop].
  destruct (configure_accepts p _).
  2:{ eexists _, _. split; [reflexivity|]. split; [lia|].
      intros _. split; discriminate. }
  rewrite encodeLoop_closed.
  destruct (firstFailure p _ 0) as [k|].
  { eexists _, _. split; [reflexivity|]. split; [lia|].
    intros _. split; [|discriminate].
    unfold frameError.
    destruct (querySelector_svg p k); [|discriminate].
    destruct (loadImage_resolves p k); discriminate. }
  destruct (flush_resolves p).
  2:{ eexists _, _. split; [reflexivity|]. split; [lia|].
      intros _. split; discriminate. }
  destruct (finalize_succeeds p).
  2:{ eexists _, _. split; [reflexivity|]. split; [lia|].
      intros _. split; discriminate. }
  eexists _, _. split; [reflexivity|]. split; [lia|].
  intros _. split; [discriminate|]. intros _.
  cbn [app filterMap rasterOf]. rewrite !filterMap_app, rasters_loopEvents.
  cbn [app filterMap rasterOf]. now rewrite !app_nil_r.
Qed.

(** A conversion on a given count, once the animation is loaded. *)
Lemma convertOn_loaded (total : Z) (p : Platform)
    (animationData : LottieFile.t) (options : ConvertOptions)
    (anim : AnimationItem.t) :
  VideoEncoder_defined p = true ->
  getContext_2d p = true ->
  loadAnimation p animationData = Some anim ->
  let dims := getDimensions (resolution options)
                (LottieFile.w animationData) (LottieFile.h animationData) in
  let setup := [CreateContainer (w dims) (h dims); AppendContainer;
                CreateCanvas (w dims) (h dims)] in
  let d := {| containerInBody := true; animAlive := true |} in
  exists o l,
    convertBodyOn total p anim options (w dims) (h dims) d = (o, d, l) /\
    convertOn total p animationData options
    = (o, initialDom,
       setup ++ [LoadAnimation] ++ l ++ [DestroyAnimation; RemoveContainer]).
Proof.
  intros Hve Hctx Hload dims setup d.
  destruct (convertBodyOn_cases total p anim options (w dims) (h dims) d)
    as (o & l & Hrun & _).
  exists o, l. split; [exact Hrun|].
  unfold convertOn, renderAndConvertOn. fold dims.
  rewrite Hve, Hctx. unfold lottie_loadAnimation. rewrite Hload.
  unfold bind, tryFinally, require, emit, appendChild, getDom, putDom, ret,
    cleanup, anim_destroy, removeChild, initialDom.
  cbn -[convertBodyOn]. unfold bind. fold d. rewrite Hrun. cbn.
  subst setup. cbn. reflexivity.
Qed.

(** C1 (as the code has it).  Let n be the value that
    Math.ceil((anim.totalFrames / (anim.frameRate || 30)) * fps) has in
    binary64 arithmetic, for the totalFrames and frameRate that the
    loaded animation reports.  Where WebCodecs and the 2D context are
    there and the animation loads, the conversion fails with
    InvalidDuration exactly when n <= 0, and it has then rendered no
    frame; an animation that reports a totalFrames of zero gives n = 0
    and so this failure; a conversion that succeeds has rendered exactly
    the n frames 0 .. n - 1; and where n is the count of exact
    arithmetic, the conversion is the one that the other statements are
    about. *)
Theorem C1_frame_count_and_invalid_duration (p : Platform)
    (animationData : LottieFile.t) (options : ConvertOptions)
    (anim : AnimationItem.t) (n : Z) :
  VideoEncoder_defined p = true ->
  getContext_2d p = true ->
  loadAnimation p animationData = Some anim ->
  totalOutputFrames64 anim (fps options) = Some n ->
  let r := convertOn n p animationData options in
  (outcomeOf r = Thrown InvalidDuration <-> n <= 0) /\
  (outcomeOf r = Thrown InvalidDuration ->
   filterMap rasterOf (logOf r) = []) /\
  (AnimationItem.totalFrames anim = 0%Q ->
   n = 0 /\ outcomeOf r = Thrown InvalidDuration) /\
  (outcomeOf r = Returned tt ->
   0 < n /\ filterMap rasterOf (logOf r) = Zseq 0 (Z.to_nat n)) /\
  (n = totalOutputFrames anim (fps options) ->
   r = convert p animationData options).
Proof.
  intros Hve Hctx Hload Hn r.
  destruct (convertOn_loaded n p animationData options anim Hve Hctx Hload)
    as (o & l & Hrun & Hr).
  fold r in Hr.
  destruct (convertBodyOn_cases n p anim options
              (w (getDimensions (resolution options)
                    (LottieFile.w animationData)
                    (LottieFile.h animationData)))
              (h (getDimensions (resolution options)
                    (LottieFile.w animationData)
                    (LottieFile.h animationData)))
              {| containerInBody := true; animAlive := true |})
    as (o' & l' & Hrun' & Hle & Hpos).
  rewrite Hrun in Hrun'. injection Hrun' as <- <-.
  assert (Ho : outcomeOf r = o) by now rewrite Hr.
  assert (Hl : filterMap rasterOf (logOf r) = filterMap rasterOf l).
  { rewrite Hr. unfold logOf. cbn [snd app filterMap rasterOf].
    rewrite filterMap_app. cbn [filterMap rasterOf]. apply app_nil_r. }
  assert (Hiff : outcomeOf r = Thrown InvalidDuration <-> n <= 0).
  { rewrite Ho. split.
    - intros Hthrown. destruct (Z.le_gt_cases n 0) as [H | H]; [exact H|].
      apply Z.gt_lt_iff in H. now destruct (Hpos ltac:(lia)) as [Hne _].
    - intros H. now destruct (Hle H). }
  split; [exact Hiff|]. split; [|split; [|split]].
  - intros Hthrown. apply Hiff in Hthrown.
    destruct (Hle Hthrown) as [_ ->]. now rewrite Hl.
  - intros Hzero.
    assert (Hz : n = 0).
    { revert Hn. unfold totalOutputFrames64, Float64.totalOutputFrames.
      rewrite Hzero.
      change (Float64.ofQ 0) with (S754_zero false).
      destruct (Float64.ofQ (AnimationItem.frameRate anim))
        as [sr | sr | | sr mr er];
        destruct (Float64.ofZ (fps options)) as [sf | sf | | sf mf ef];
        vm_compute; congruence. }
    split; [exact Hz|]. apply Hiff. lia.
  - intros Hret. rewrite Ho in Hret.
    assert (Hn0 : 0 < n).
    { destruct (Z.le_gt_cases n 0) as [H | H]; [|lia].
      destruct (Hle H) as [Hthrown _]. congruence. }
    split; [exact Hn0|]. rewrite Hl. now apply (Hpos Hn0).
  - intros ->. symmetry. now apply convert_on_exact_count.
Qed.

Lemma C1_witness :
  let r := convertOn 0 workingPlatform emptyRangeDocument options_FHD_30 in
  outcomeOf r = Thrown InvalidDuration /\
  filterMap rasterOf (logOf r) = [] /\
  r = convert workingPlatform emptyRangeDocument options_FHD_30.
Proof.
  destruct (C1_frame_count_and_invalid_duration workingPlatform
              emptyRangeDocument options_FHD_30
              {| AnimationItem.totalFrames := 0;
                 AnimationItem.frameRate := 30 |} 0
              eq_refl eq_refl eq_refl eq_refl)
    as (_ & Hnone & Hzero & _ & Hexact).
  destruct (Hzero eq_refl) as [_ Hthrown].
  split; [exact Hthrown|].
  split; [exact (Hnone Hthrown)|].
  apply Hexact. reflexivity.
Defined.

(** C1, as the specification states it, fails: for a document of 31
    frames at 30 frames per second, converted at 30 frames per second,
    the formula gives ceil((31 / 30) * 30) = 31, but in binary64
    (31 / 30) * 30 is above 31, the code computes 32, and a conversion
    that succeeds renders the 32 frames 0 .. 31. *)
Lemma C1_counterexample :
  exists anim,
    loadAnimation workingPlatform thirtyOneFrameDocument = Some anim /\
    spec_totalOutputFrames
      (LottieFile.op thirtyOneFrameDocument
       - LottieFile.ip thirtyOneFrameDocument)
      (LottieFile.fr thirtyOneFrameDocument) 30
    = Some 31 /\
    totalOutputFrames64 anim 30 = Some 32 /\
    let r :=
      convertOn 32 workingPlatform thirtyOneFrameDocument options_FHD_30 in
    outcomeOf r = Returned tt /\
    filterMap rasterOf (logOf r) = Zseq 0 32.
Proof.
  eexists. split; [reflexivity|].
  split; [vm_compute; reflexivity|].
  split; [vm_compute; reflexivity|].
  vm_compute. split; reflexivity.
Qed.

(** ** The progress reports *)

(** In binary64 the percentage of a report can be one below the value of
    exact arithmetic: at frame 35 of 50, (35 / 50) * 85 is below 59.5 and
    rounds to 59, where the exact product is 59.5 and rounds to 60. *)
Lemma pct_binary64_one_below :
  Float64.pct 50 35 = Some 69 /\ pct 50 35 = 70.
Proof. split; vm_compute; reflexivity. Qed.



(** ** gemini.ts *)

Lemma mapLayerNames_None (readNm : JsAny -> Gemini.NmRead)
    (layers : list JsAny) :
  Gemini.mapLayerNames readNm layers = None <->
  exists l, In l layers /\ readNm l = Gemini.NmThrows.
Proof.
  induction layers as [|l rest IH]; cbn [Gemini.mapLayerNames].
  { split; [discriminate|]. now intros (l & [] & _). }
  destruct (readNm l) eqn:El.
  - split; [|reflexivity]. intros _. exists l. split; [now left|exact El].
  - destruct (Gemini.mapLayerNames readNm rest) as [names|]; cbn.
    + split; [discriminate|]. intros (l' & [<- | Hin] & Hl'); [congruence|].
      assert (H : Some names = None) by (apply IH; now exists l').
      discriminate.
    + split; [|reflexivity]. intros _.
      destruct (proj1 IH eq_refl) as (l' & Hin & Hl').
      exists l'. split; [now right|exact Hl'].
  - destruct (Gemini.mapLayerNames readNm rest) as [names|]; cbn.
    + split; [discriminate|]. intros (l' & [<- | Hin] & Hl'); [congruence|].
      assert (H : Some names = None) by (apply IH; now exists l').
      discriminate.
    + split; [|reflexivity]. intros _.
      destruct (proj1 IH eq_refl) as (l' & Hin & Hl').
      exists l'. split; [now right|exact Hl'].
Qed.

Lemma mapLayerNames_Some (readNm : JsAny -> Gemini.NmRead)
    (layers : list JsAny) :
  forall names,
    Gemini.mapLayerNames readNm layers = Some names ->
    List.length names = List.length layers /\
    forall i l,
      nth_error layers i = Some l ->
      nth_error names i
      = Some (match readNm l with
              | Gemini.NmTruthy nm => Gemini.Named nm
              | _ => Gemini.UnnamedLayer
              end).
Proof.
  induction layers as [|l rest IH]; cbn [Gemini.mapLayerNames]; intros names.
  { intros [= <-]. split; [reflexivity|]. now intros [|i] l'. }
  destruct (readNm l) eqn:El; [discriminate| |];
    (destruct (Gemini.mapLayerNames readNm rest) as [names'|];
       [|discriminate]);
    cbn; intros [= <-]; destruct (IH names' eq_refl) as [Hlen Hnth];
    (split; [cbn; now rewrite Hlen|]);
    intros [|i] l'; cbn [nth_error].
  - intros [= <-]. now rewrite El.
  - apply Hnth.
  - intros [= <-]. now rewrite El.
  - apply Hnth.
Qed.

(** X17.  Building the summary for the analysis reads the name of each of
    the first five layers, in document order, and of no other layer; it
    throws exactly when one of these reads throws, which a layer that is
    null makes it do.  Otherwise the summary counts all layers, lists one
    entry for each of the first five, which is the layer's name when that
    is truthy and 'Unnamed Layer' when it is not, and reports assets
    exactly when the document has some. *)
Theorem summary_names_first_five_layers (readNm : JsAny -> Gemini.NmRead)
    (json : LottieFile.t) :
  let layers := LottieFile.layers json in
  (Gemini.parseLottieForPrompt readNm json = None <->
   exists l, In l (firstn 5 layers) /\ readNm l = Gemini.NmThrows) /\
  (forall s,
      Gemini.parseLottieForPrompt readNm json = Some s ->
      Gemini.totalLayers s = List.length layers /\
      List.length (Gemini.sampleLayers s) = Nat.min 5 (List.length layers) /\
      (forall i l,
          (i < 5)%nat -> nth_error layers i = Some l ->
          nth_error (Gemini.sampleLayers s) i
          = Some (match readNm l with
                  | Gemini.NmTruthy nm => Gemini.Named nm
                  | _ => Gemini.UnnamedLayer
                  end)) /\
      (Gemini.hasAssets s = true <-> LottieFile.assets json <> [])).
Proof.
  intros layers. unfold Gemini.parseLottieForPrompt. fold layers. split.
  - rewrite <- mapLayerNames_None.
    destruct (Gemini.mapLayerNames readNm (firstn 5 layers));
      split; congruence.
  - intros s.
    destruct (Gemini.mapLayerNames readNm (firstn 5 layers)) as [names|]
      eqn:En; [|discriminate].
    intros [= <-].
    cbn [Gemini.totalLayers Gemini.sampleLayers Gemini.hasAssets].
    destruct (mapLayerNames_Some readNm _ names En) as [Hlen Hnth].
    split; [reflexivity|]. split; [|split].
    + now rewrite Hlen, length_firstn.
    + intros i l Hi Hl. apply Hnth. rewrite nth_error_firstn.
      destruct (Nat.ltb_spec i 5) as [_ | H]; [exact Hl|lia].
    + destruct (LottieFile.assets json); cbn; split; congruence.
Qed.

Lemma summary_witness :
  Gemini.parseLottieForPrompt exampleReadNm brokenLayerDocument = None /\
  exists s,
    Gemini.parseLottieForPrompt exampleReadNm sevenLayerDocument = Some s /\
    Gemini.totalLayers s = 7%nat /\
    List.length (Gemini.sampleLayers s) = 5%nat /\
    nth_error (Gemini.sampleLayers s) 1 = Some Gemini.UnnamedLayer.
Proof.
  split.
  - apply (proj1 (summary_names_first_five_layers exampleReadNm
                    brokenLayerDocument)).
    exists (JsOpaque "null"). split; [now left|reflexivity].
  - eexists. split; [reflexivity|].
    destruct (proj2 (summary_names_first_five_layers exampleReadNm
                       sevenLayerDocument) _ eq_refl)
      as (Htotal & Hlen & Hnth & _).
    split; [exact Htotal|]. split; [exact Hlen|].
    exact (Hnth 1%nat (JsOpaque "{}") ltac:(lia) eq_refl).
Defined.

(** X18.  An analysis makes at most one request to the model.  With the
    API key missing or empty it fails with its own error before any
    request.  With a key, when building the summary throws, the analysis
    fails with that TypeError, not with the generic error, and makes no
    request; otherwise it makes exactly one request, with the key and the
    summary, succeeds exactly when the request yields a text that parses,
    and fails with the generic error when it does not.  [handleAnalyze]
    always ends by resetting the analysing flag, stores the result
    exactly on success, and shows the same alert for every failure. *)
Theorem analysis_requests_and_failures (readNm : JsAny -> Gemini.NmRead)
    (s : Gemini.Service) (lottieData : LottieFile.t) :
  let run := Gemini.analyzeAnimation readNm s lottieData in
  (List.length (snd run) <= 1)%nat /\
  (Gemini.API_KEY s = None \/ Gemini.API_KEY s = Some EmptyString ->
   run = (inr Gemini.ApiKeyMissing, [])) /\
  (forall key,
      Gemini.API_KEY s = Some key -> key <> EmptyString ->
      (Gemini.parseLottieForPrompt readNm lottieData = None ->
       run = (inr Gemini.LayerTypeError, [])) /\
      (forall sm,
          Gemini.parseLottieForPrompt readNm lottieData = Some sm ->
          let json := Gemini.JSON_stringify s sm in
          snd run
          = [{| Gemini.apiKey := key; Gemini.simplifiedJson := json |}] /\
          (forall result,
              fst run = inl result <->
              exists text,
                Gemini.generateContent s key json = Some text /\
                Gemini.JSON_parse s text = Some result) /\
          ((forall result, fst run <> inl result) ->
           fst run = inr Gemini.AnalysisFailed))) /\
  (exists outcome,
      Gemini.handleAnalyze readNm s (Some lottieData)
      = [Gemini.SetIsAnalyzing true; outcome; Gemini.SetIsAnalyzing false] /\
      (forall result, fst run = inl result ->
                      outcome = Gemini.SetAnalysis result) /\
      (forall e, fst run = inr e ->
                 outcome = Gemini.Alert
                   "Failed to analyze. Please check your API Key configuration.")).
Proof.
  intros run.
  assert (Hhandle : exists outcome,
    Gemini.handleAnalyze readNm s (Some lottieData)
    = [Gemini.SetIsAnalyzing true; outcome; Gemini.SetIsAnalyzing false] /\
    (forall result, fst run = inl result ->
                    outcome = Gemini.SetAnalysis result) /\
    (forall e, fst run = inr e ->
               outcome = Gemini.Alert
                 "Failed to analyze. Please check your API Key configuration.")).
  { unfold Gemini.handleAnalyze. fold run.
    eexists. split; [reflexivity|].
    destruct (fst run) as [result | e]; split; congruence. }
  split; [|split; [|split; [|exact Hhandle]]]; clear Hhandle; subst run;
    unfold Gemini.analyzeAnimation.
  - destruct (Gemini.API_KEY s) as [key|]; [|cbn; lia].
    destruct (String.eqb key ""); [cbn; lia|].
    destruct (Gemini.parseLottieForPrompt readNm lottieData) as [sm|];
      [|cbn; lia].
    destruct (Gemini.generateContent s key _) as [text|]; [|cbn; lia].
    destruct (Gemini.JSON_parse s text); cbn; lia.
  - intros [-> | ->]; reflexivity.
  - intros key -> Hne.
    apply String.eqb_neq in Hne. rewrite Hne.
    split; [now intros ->|].
    intros sm ->. cbv zeta. set (json := Gemini.JSON_stringify s sm).
    destruct (Gemini.generateContent s key json) as [text|] eqn:Eg.
    2:{ split; [reflexivity|]. split; [|reflexivity].
        intros result. split; [discriminate|]. now intros (t & [=] & _). }
    destruct (Gemini.JSON_parse s text) as [result|] eqn:Ep.
    + split; [reflexivity|]. split.
      * intros result'. split.
        -- intros [= <-]. now exists text.
        -- intros (t & [= <-] & Hr). cbn. congruence.
      * intros Hnone. now elim (Hnone result).
    + split; [reflexivity|]. split; [|reflexivity].
      intros result'. split; [discriminate|].
      intros (t & [= <-] & Hr). congruence.
Qed.

Lemma analysis_witness :
  Gemini.analyzeAnimation exampleReadNm keylessService oneSecondDocument
  = (inr Gemini.ApiKeyMissing, []) /\
  Gemini.analyzeAnimation exampleReadNm offlineService brokenLayerDocument
  = (inr Gemini.LayerTypeError, []).
Proof.
  split.
  - exact (proj1 (proj2 (analysis_requests_and_failures exampleReadNm
                           keylessService oneSecondDocument))
             (or_introl eq_refl)).
  - apply (proj1 (proj2 (proj2 (analysis_requests_and_failures exampleReadNm
                                  offlineService brokenLayerDocument)))
             "key"%string eq_refl).
    + discriminate.
    + reflexivity.
Defined.
